(** * WeChat json_bot channel plugin: verification of the adapter

    Shallow embedding of [extensions/wechat-jsonbot/src/channel.ts],
    [webhook.ts] and [runtime.ts], and the properties of the target
    normalisation, the outbound senders, the inbound webhook handler and
    the onboarding operations. *)

From Stdlib Require Import ZArith NArith List String Ascii Bool Lia DecimalString.
From Stdlib Require Import Floats.SpecFloat.
From stdpp Require Import gmap list.

Set Default Proof Using "Type".
Set Warnings "-register-all".
Open Scope N_scope.

(** ** JavaScript strings

    A JavaScript string is a sequence of UTF-16 code units; a code unit is
    a number below 65536. *)

Abbreviation jsstring := (list N).

(** A literal of the source, all of whose characters are ASCII. *)
Definition str (s : string) : list N :=
  map N_of_ascii (list_ascii_of_string s).
Arguments str s%_string.

(** [String(n)] for a non-negative integer [n]: its decimal digits. *)
Definition decimal (n : N) : list N :=
  str (NilZero.string_of_uint (N.to_uint n)).

Module Str.

(** WhiteSpace and LineTerminator code units, the ones [String.prototype.trim]
    removes: TAB, LF, VT, FF, CR, SP, NBSP, U+1680, U+2000..U+200A, U+2028,
    U+2029, U+202F, U+205F, U+3000 and U+FEFF. *)
Definition is_ws (c : N) : bool :=
  ((9 <=? c) && (c <=? 13)) || (c =? 32) || (c =? 160) || (c =? 5760)
  || ((8192 <=? c) && (c <=? 8202)) || (c =? 8232) || (c =? 8233)
  || (c =? 8239) || (c =? 8287) || (c =? 12288) || (c =? 65279).

(** The characters of the class [[\\/]]: backslash and slash. *)
Definition is_slash (c : N) : bool := (c =? 92) || (c =? 47).

(** Drop the longest prefix, resp. suffix, of characters satisfying [p]. *)
Fixpoint drop_start (p : N -> bool) (s : list N) : list N :=
  match s with
  | c :: s' => if p c then drop_start p s' else s
  | [] => []
  end.

Fixpoint drop_end (p : N -> bool) (s : list N) : list N :=
  match s with
  | [] => []
  | c :: s' =>
      match drop_end p s' with
      | [] => if p c then [] else [c]
      | t => c :: t
      end
  end.

(** [s.trim()] *)
Definition trim (s : list N) : list N := drop_end is_ws (drop_start is_ws s).

(** Truthiness of a string: [Boolean(s)], the negation of [!s]. *)
Definition truthy (s : list N) : bool :=
  match s with [] => false | _ => true end.

(** The simple case folding of the ASCII letters.  [Canonicalize] of a
    case-insensitive regular expression without the [u] flag upper-cases a
    character, and never sends a code unit of 128 or more to one below 128,
    so against an ASCII pattern only the ASCII letters fold. *)
Definition canonicalize (c : N) : N :=
  if (97 <=? c) && (c <=? 122) then c - 32 else c.

(** [toLowerCase] and [toUpperCase] on the ASCII letters.  The source
    lower-cases a header value only to test it for the prefix ["bearer "],
    none of whose characters is the lower case of a character outside
    ASCII, and upper-cases the request method, which is an HTTP token and
    so ASCII. *)
Definition lower (c : N) : N :=
  if (65 <=? c) && (c <=? 90) then c + 32 else c.
Definition upper (c : N) : N :=
  if (97 <=? c) && (c <=? 122) then c - 32 else c.
Definition toLowerCase (s : list N) : list N := map lower s.
Definition toUpperCase (s : list N) : list N := map upper s.

(** [s.startsWith(p)] *)
Fixpoint startsWith (p s : list N) : bool :=
  match p, s with
  | [], _ => true
  | a :: p', b :: s' => (a =? b) && startsWith p' s'
  | _ :: _, [] => false
  end.

(** [s.slice(n)] for [0 <= n] *)
Definition slice (n : nat) (s : list N) : list N := skipn n s.

(** Match the literal [pat] at the start of [s], ignoring case; the rest of
    [s] after the match. *)
Fixpoint match_ci (pat s : list N) : option (list N) :=
  match pat, s with
  | [], _ => Some s
  | a :: pat', b :: s' =>
      if canonicalize a =? canonicalize b then match_ci pat' s' else None
  | _ :: _, [] => None
  end.

(** [s.replace(/^(wechat|wx):/i, "")]: the alternatives are tried in order,
    each followed by the colon. *)
Definition strip_scheme (s : list N) : list N :=
  match match_ci (str "wechat:") s with
  | Some rest => rest
  | None =>
      match match_ci (str "wx:") s with
      | Some rest => rest
      | None => s
      end
  end.

(** [s.replace(/[\\/]+$/, "")] *)
Definition strip_trailing_slashes (s : list N) : list N :=
  drop_end is_slash s.

(** [s.split("?")[0]]: the part of [s] before its first question mark. *)
Fixpoint before_query (s : list N) : list N :=
  match s with
  | [] => []
  | c :: s' => if c =? 63 then [] else c :: before_query s'
  end.

(** Every character of [s] satisfies [p]. *)
Definition all (p : N -> bool) (s : list N) : bool := forallb p s.

(** [a] is [b] up to the case of an ASCII letter. *)
Definition same_letter (a b : N) : bool :=
  (a =? b)
  || ((65 <=? b) && (b <=? 90) && (a =? b + 32))
  || ((97 <=? b) && (b <=? 122) && (a =? b - 32)).

(** [p] spells [q] in some letter case. *)
Fixpoint spells (p q : list N) : bool :=
  match p, q with
  | [], [] => true
  | a :: p', b :: q' => same_letter a b && spells p' q'
  | _, _ => false
  end.

End Str.


(** ** Values, objects and the store

    A number is an IEEE 754 binary64 value.  Objects live in a store and
    are named by a reference, so that two holders of a reference see the
    same object; an object is the finite map of its own enumerable
    properties. *)

Abbreviation number := spec_float.
Abbreviation loc := positive.

Inductive val :=
  | VUndef
  | VNull
  | VBool (b : bool)
  | VNum (x : number)
  | VStr (s : jsstring)
  | VRef (l : loc).

Abbreviation object := (gmap (list N) val).
Abbreviation heap := (gmap positive (gmap (list N) val)).

(** The value a JSON text parses to.  Nothing else refers to it, so it is
    kept as a tree; an object lists its properties, each name once. *)
Inductive json :=
  | JNull
  | JBool (b : bool)
  | JNum (x : number)
  | JStr (s : jsstring)
  | JArr (items : list json)
  | JObj (props : list (jsstring * json)).

(** What a [throw] carries: an [Error] made by the source with its message,
    or a value raised by the engine or the host, known by its [String(err)]. *)
Inductive exn :=
  | Error (message : jsstring)
  | Foreign (text : jsstring).

(** [String(err)] *)
Definition String_exn (e : exn) : jsstring :=
  match e with
  | Error [] => str "Error"
  | Error m => str "Error: " ++ m
  | Foreign t => t
  end.

(** The outcome of a call that may throw. *)
Inductive Res (A : Type) :=
  | Ok (a : A)
  | Throw (e : exn).
Arguments Ok {A} a.
Arguments Throw {A} e.

(** The built-in functions of the JavaScript engine that the source calls
    and that are not modelled further. *)
Class Engine := {
  (** [String(x)] for a number *)
  Number_toString : number -> jsstring;
  (** [Math.round] *)
  Math_round : number -> number;
  (** [Buffer.concat(chunks).toString("utf-8")] on the concatenated bytes *)
  utf8_decode : list Byte.byte -> jsstring;
  (** [Buffer.byteLength(s)] *)
  Buffer_byteLength : jsstring -> N;
  (** [JSON.parse]: the value, or [String(err)] of the SyntaxError *)
  JSON_parse : jsstring -> json + jsstring;
  (** [JSON.stringify] *)
  JSON_stringify : json -> jsstring;
  (** [String(err)] of the TypeError raised when the named property or method
      cannot be used on a value *)
  type_error : jsstring -> jsstring;
}.

Definition TypeError `{Engine} (what : jsstring) : exn :=
  Foreign (type_error what).

(** [v ?? d] tests for [undefined] and [null]. *)
Definition nullish (v : val) : bool :=
  match v with VUndef | VNull => true | _ => false end.

(** The own enumerable properties of a string: its code units, by index. *)
Definition string_props (s : jsstring) : object :=
  list_to_map (imap (fun i c => (decimal (N.of_nat i), VStr [c])) s).

(** The own enumerable properties of a value, which is what an object
    spread [{...v}] copies: those of the object a reference names, the
    indexed characters of a string, none for the other primitives. *)
Definition own_props (h : heap) (v : val) : object :=
  match v with
  | VRef l => default ∅ (h !! l)
  | VStr s => string_props s
  | _ => ∅
  end.

(** [o[k]] for a property name that is not inherited: [undefined] when the
    object has no such property. *)
Definition prop (o : object) (k : jsstring) : val :=
  default VUndef (o !! k).

(** Allocation of a new object. *)
Definition alloc (h : heap) (o : object) : heap * loc :=
  let l := fresh (dom h) in (<[l := o]> h, l).

(** ** Calls that thread a state and may throw *)

Definition M (S A : Type) : Type := S -> Res A * S.

Definition ret {S A} (a : A) : M S A := fun s => (Ok a, s).

Definition throw {S A} (e : exn) : M S A := fun s => (Throw e, s).

Definition lift {S A} (r : Res A) : M S A := fun s => (r, s).

Definition bind {S A B} (m : M S A) (k : A -> M S B) : M S B :=
  fun s =>
    match m s with
    | (Ok a, s') => k a s'
    | (Throw e, s') => (Throw e, s')
    end.

Notation "'let*' x := m 'in' k" := (bind m (fun x => k))
  (at level 10, x name, m at level 100, k at level 200).

(** ** channel.ts *)

(** Modelled from the spec: the constant [DEFAULT_ACCOUNT_ID] of
    [openclaw/plugin-sdk], the one account of this channel, which the
    glossary names "default". *)
Definition DEFAULT_ACCOUNT_ID : jsstring := str "default".

Record ResolvedWechatJsonBotAccount := {
  accountId : jsstring;
  enabled : bool;
  name : val;
  (** [WechatJsonBotAccountConfig], as the object it is read from *)
  config : object;
}.

Definition normalizeWechatTarget (raw : jsstring) : jsstring :=
  Str.trim (Str.strip_scheme (Str.trim raw)).

(** [cfg.channels?.["wechat"] ?? {}] *)
Definition resolveWechatConfig (h : heap) (cfg : loc) : object :=
  let channels := prop (own_props h (VRef cfg)) (str "channels") in
  let raw :=
    if nullish channels then VUndef
    else prop (own_props h channels) (str "wechat") in
  if nullish raw then ∅ else own_props h raw.

(** [(raw ?? "").trim()]; a value that is neither a string nor nullish has
    no [trim] method. *)
Definition trim_or_empty `{Engine} (raw : val) : Res jsstring :=
  match raw with
  | VUndef | VNull => Ok (Str.trim [])
  | VStr s => Ok (Str.trim s)
  | _ => Throw (TypeError (str "trim"))
  end.

Definition normalizeBaseUrl `{Engine} (raw : val) : Res (option jsstring) :=
  match trim_or_empty raw with
  | Throw e => Throw e
  | Ok trimmed =>
      if negb (Str.truthy trimmed) then Ok None
      else Ok (Some (Str.strip_trailing_slashes trimmed))
  end.

Record ReplyPayload := {
  session_name : jsstring;
  content : jsstring;
  type_ : jsstring;
}.

(** A call of [fetch]: the body is [JSON.stringify] of the payload, and the
    signal aborts the call [f_abort_after] milliseconds after its start. *)
Record FetchRequest := {
  f_url : jsstring;
  f_method : jsstring;
  f_headers : list (jsstring * jsstring);
  f_body : ReplyPayload;
  f_abort_after : N;
}.

(** [body_text] is what [resp.text()] resolves to, [None] when it rejects. *)
Record Response := {
  status : N;
  statusText : jsstring;
  body_text : option jsstring;
}.

Definition resp_ok (r : Response) : bool :=
  (200 <=? status r) && (status r <=? 299).

(** [fetch] resolves to a response, or rejects (network failure, abort)
    with an error known by its [String(err)]. *)
Inductive FetchOutcome :=
  | Responds (r : Response)
  | Fails (err : jsstring).

(** The gateway and the network: what a call answers, given the calls made
    before it, and how long it takes. *)
Class Network := {
  fetch : list FetchRequest -> FetchRequest -> FetchOutcome;
  elapsed : list FetchRequest -> FetchRequest -> N;
}.

(** The calls issued so far, oldest first, and the epoch clock in
    milliseconds. *)
Record World := {
  sent : list FetchRequest;
  clock : N;
}.

Record PostResult := {
  ok : bool;
  r_status : option N;
  r_error : option jsstring;
}.

(** The call of [fetch] that [postJson] makes, and what [postJson] makes of
    its outcome. *)
Definition request (url : jsstring) (payload : ReplyPayload) (timeoutMs : N)
    : FetchRequest :=
  {| f_url := url;
     f_method := str "POST";
     f_headers := [(str "Content-Type", str "application/json")];
     f_body := payload;
     f_abort_after := N.max 1 timeoutMs |}.

Definition result_of (o : FetchOutcome) : PostResult :=
  match o with
  | Responds resp =>
      if negb (resp_ok resp) then
        let text := default [] (body_text resp) in
        {| ok := false;
           r_status := Some (status resp);
           r_error := Some (if Str.truthy text then text else statusText resp) |}
      else {| ok := true; r_status := Some (status resp); r_error := None |}
  | Fails err => {| ok := false; r_status := None; r_error := Some err |}
  end.

Definition postJson `{Network} (url : jsstring) (payload : ReplyPayload)
    (timeoutMs : N) : M World PostResult :=
  fun w =>
    let rq := request url payload timeoutMs in
    (Ok (result_of (fetch (sent w) rq)),
     {| sent := sent w ++ [rq]; clock := clock w + elapsed (sent w) rq |}).

(** [Date.now()] *)
Definition Date_now : M World N := fun w => (Ok (clock w), w).

Definition applyWechatConfig (cfg : loc) (patch : object)
    : M heap loc :=
  fun h =>
    let channelsv := prop (own_props h (VRef cfg)) (str "channels") in
    let channels := if nullish channelsv then ∅ else own_props h channelsv in
    let currentv := prop channels (str "wechat") in
    let current := if nullish currentv then ∅ else own_props h currentv in
    let (h1, wechat) :=
      alloc h (<[str "enabled" := VBool true]> (patch ∪ current)) in
    let (h2, channels') := alloc h1 (<[str "wechat" := VRef wechat]> channels) in
    let (h3, next) :=
      alloc h2 (<[str "channels" := VRef channels']> (own_props h (VRef cfg))) in
    (Ok next, h3).

Definition resolveWechatAccount (h : heap) (cfg : loc)
    (accountId : option jsstring) : ResolvedWechatJsonBotAccount :=
  let trimmed := Str.trim (default DEFAULT_ACCOUNT_ID accountId) in
  let config := resolveWechatConfig h cfg in
  {| accountId := if Str.truthy trimmed then trimmed else DEFAULT_ACCOUNT_ID;
     enabled := match prop config (str "enabled") with
                | VBool b => b
                | _ => true
                end;
     name := prop config (str "name");
     config := config |}.

(** *** The onboarding adapter *)

(** [configure], given what the two prompts resolve to: the base URL, and
    the inbound token, which may be nullish. *)
Definition configure `{Engine} (cfg : loc) (nextBaseUrl : jsstring)
    (nextInboundToken : option jsstring) : M heap (loc * jsstring) :=
  let* baseUrl := lift (normalizeBaseUrl (VStr nextBaseUrl)) in
  let token := Str.trim (default [] nextInboundToken) in
  let inboundToken := if Str.truthy token then VStr token else VUndef in
  let patch : object :=
    <[str "inboundToken" := inboundToken]>
      (<[str "jsonBotBaseUrl" := from_option VStr VUndef baseUrl]> ∅) in
  let* next := applyWechatConfig cfg patch in
  ret (next, DEFAULT_ACCOUNT_ID).

Definition disable (cfg : loc) : M heap loc :=
  fun h =>
    let channelsv := prop (own_props h (VRef cfg)) (str "channels") in
    let channels := if nullish channelsv then ∅ else own_props h channelsv in
    let currentv := prop channels (str "wechat") in
    let current := if nullish currentv then ∅ else own_props h currentv in
    let (h1, wechat) := alloc h (<[str "enabled" := VBool false]> current) in
    let (h2, channels') := alloc h1 (<[str "wechat" := VRef wechat]> channels) in
    let (h3, next) :=
      alloc h2 (<[str "channels" := VRef channels']> (own_props h (VRef cfg))) in
    (Ok next, h3).

(** *** The outbound senders *)

Record SendResult := {
  channel : jsstring;
  messageId : jsstring;
  chatId : jsstring;
}.

(** [String(x ?? "")] for an optional status or error text *)
Definition status_text (s : option N) : jsstring :=
  match s with Some n => decimal n | None => [] end.
Definition error_text (e : option jsstring) : jsstring := default [] e.

(** The message of a failed send; [what] is [""], [" caption"] or [" file"]. *)
Definition failure (what : jsstring) (r : PostResult) : jsstring :=
  str "wechat: json_bot /reply" ++ what ++ str " failed status="
  ++ status_text (r_status r) ++ str " err=" ++ error_text (r_error r).

Definition missing_base_url : exn :=
  Error (str "wechat: missing channels.wechat.jsonBotBaseUrl").

(** [if (!baseUrl) throw ...]: the base URL when it is a non-empty string. *)
Definition require_base_url (baseUrl : option jsstring) : M World jsstring :=
  match baseUrl with
  | Some (c :: b) => ret (c :: b)
  | Some [] | None => throw missing_base_url
  end.

Definition sendText `{Engine} `{Network} (h : heap) (cfg : loc)
    (to text : jsstring) : M World SendResult :=
  let account := resolveWechatAccount h cfg (Some DEFAULT_ACCOUNT_ID) in
  let* baseUrl :=
    lift (normalizeBaseUrl (prop (config account) (str "jsonBotBaseUrl"))) in
  let* baseUrl := require_base_url baseUrl in
  let sessionName := normalizeWechatTarget to in
  let* result :=
    postJson (baseUrl ++ str "/reply")
      {| session_name := sessionName; content := text; type_ := str "text" |}
      5000 in
  if negb (ok result) then throw (Error (failure [] result))
  else
    let* now := Date_now in
    ret {| channel := str "wechat";
           messageId := str "wechat:" ++ decimal now;
           chatId := sessionName |}.

(** [String(mediaUrl)] *)
Definition String_opt (s : option jsstring) : jsstring :=
  default (str "undefined") s.

Definition sendMedia `{Engine} `{Network} (h : heap) (cfg : loc)
    (to : jsstring) (text mediaUrl : option jsstring) : M World SendResult :=
  let account := resolveWechatAccount h cfg (Some DEFAULT_ACCOUNT_ID) in
  let* baseUrl :=
    lift (normalizeBaseUrl (prop (config account) (str "jsonBotBaseUrl"))) in
  let* baseUrl := require_base_url baseUrl in
  let sessionName := normalizeWechatTarget to in
  let caption := Str.trim (default [] text) in
  let* _ :=
    if Str.truthy caption then
      let* captionResult :=
        postJson (baseUrl ++ str "/reply")
          {| session_name := sessionName; content := caption;
             type_ := str "text" |}
          5000 in
      if negb (ok captionResult)
      then throw (Error (failure (str " caption") captionResult))
      else ret tt
    else ret tt in
  let* fileResult :=
    postJson (baseUrl ++ str "/reply")
      {| session_name := sessionName; content := String_opt mediaUrl;
         type_ := str "file" |}
      15000 in
  if negb (ok fileResult) then throw (Error (failure (str " file") fileResult))
  else
    let* now := Date_now in
    ret {| channel := str "wechat";
           messageId := str "wechat:" ++ decimal now;
           chatId := sessionName |}.

(** ** runtime.ts *)

(** The arguments of [handleInbound], the runtime apart. *)
Record InboundParams := {
  in_cfg : loc;
  in_sender : jsstring;
  in_text : jsstring;
  in_timestampMs : option number;
}.

(** The host runtime, as far as the webhook handler uses it: the store and
    the configuration [config.loadConfig()] returns, and the outcome of the
    routing, session, envelope and dispatch calls that [handleInbound]
    drives, [None] when its promise fulfils and [String(err)] when it
    rejects. *)
Record PluginRuntime := {
  store : heap;
  loadConfig : loc;
  pipeline : InboundParams -> option jsstring;
}.

Definition setWechatRuntime (next : PluginRuntime)
    (runtime : option PluginRuntime) : option PluginRuntime :=
  Some next.

Definition getWechatRuntime (runtime : option PluginRuntime)
    : Res PluginRuntime :=
  match runtime with
  | None => Throw (Error (str "WeChat runtime not initialized"))
  | Some r => Ok r
  end.

(** ** webhook.ts *)

(** A header of the request: absent, one value, or several. *)
Inductive header :=
  | Absent
  | Single (v : jsstring)
  | Multi (vs : list jsstring).

(** [Array.isArray(h) ? h[0] : h] *)
Definition first_value (h : header) : option jsstring :=
  match h with
  | Absent => None
  | Single v => Some v
  | Multi vs => head vs
  end.

(** The body of a request as the stream delivers it: chunks of bytes, then
    the end, or an error of the stream known by its [String(err)]. *)
Inductive stream :=
  | Ended
  | Chunk (buf : list Byte.byte) (rest : stream)
  | Broken (err : jsstring).

Record IncomingMessage := {
  method : option jsstring;
  url : option jsstring;
  authorization : header;
  x_openclaw_token : header;
  body : stream;
}.

Record ServerResponse := {
  headersSent : bool;
  statusCode : N;
  headers : list (jsstring * jsstring);
  (** the body passed to [res.end] *)
  written : option jsstring;
}.

(** What the handler does that can be observed, in order. *)
Inductive event :=
  | Sent (statusCode : N) (payload : json)
  | Parse (text : jsstring)
  | Inbound (params : InboundParams)
  | LogError (msg : jsstring).

(** The response of the request being handled, and the events so far. *)
Record Conn := {
  res : ServerResponse;
  trace : list event;
}.

Definition emit (e : event) : M Conn unit :=
  fun c => (Ok tt, {| res := res c; trace := trace c ++ [e] |}).

Definition parseBearerToken (headerValue : header) : option jsstring :=
  match first_value headerValue with
  | None => None
  | Some value =>
      if negb (Str.truthy value) then None
      else
        let trimmed := Str.trim value in
        if negb (Str.truthy trimmed) then None
        else
          let lower := Str.toLowerCase trimmed in
          if negb (Str.startsWith (str "bearer ") lower) then None
          else
            let token := Str.trim (Str.slice (length (str "bearer ")) trimmed) in
            if Str.truthy token then Some token else None
  end.

(** The loop of [readJsonBody]: the chunks read, unless the size passes
    [maxBytes] or the stream fails. *)
Fixpoint read_chunks (maxBytes size : N) (chunks : list (list Byte.byte))
    (s : stream) : Res (list (list Byte.byte)) :=
  match s with
  | Ended => Ok chunks
  | Broken err => Throw (Foreign err)
  | Chunk buf rest =>
      let size := size + N.of_nat (length buf) in
      if maxBytes <? size then Throw (Error (str "payload too large"))
      else read_chunks maxBytes size (chunks ++ [buf]) rest
  end.

Definition readJsonBody `{Engine} (req : IncomingMessage) (maxBytes : N)
    : M Conn json :=
  let* chunks := lift (read_chunks maxBytes 0 [] (body req)) in
  let text := Str.trim (utf8_decode (concat chunks)) in
  if negb (Str.truthy text) then ret (JObj [])
  else
    let* _ := emit (Parse text) in
    match JSON_parse text with
    | inl v => ret v
    | inr err => throw (Foreign err)
    end.

(** [res.setHeader(name, value)]: header names are kept in lower case, and
    a header set again is replaced. *)
Definition setHeader (name value : jsstring)
    (hs : list (jsstring * jsstring)) : list (jsstring * jsstring) :=
  let name := Str.toLowerCase name in
  filter (fun kv => kv.1 <> name) hs ++ [(name, value)].

Definition respondJson `{Engine} (statusCode : N) (payload : json)
    : M Conn unit :=
  fun c =>
    if headersSent (res c) then (Ok tt, c)
    else
      let body := JSON_stringify payload in
      (Ok tt,
       {| res :=
            {| headersSent := true;
               statusCode := statusCode;
               headers :=
                 setHeader (str "Content-Length")
                   (decimal (Buffer_byteLength body))
                   (setHeader (str "Content-Type")
                      (str "application/json; charset=utf-8")
                      (headers (res c)));
               written := Some body |};
          trace := trace c ++ [Sent statusCode payload] |}).

(** The property [k] of the object literal a JSON text denotes. *)
Fixpoint own_property (k : jsstring) (props : list (jsstring * json))
    : option json :=
  match props with
  | [] => None
  | (k', v) :: props' =>
      if bool_decide (k' = k) then Some v else own_property k props'
  end.

(** [v[k]] for a parsed value and a property name that no prototype
    defines: reading a property of [null] raises a TypeError, and the
    primitives and arrays have no such property. *)
Definition member `{Engine} (v : json) (k : jsstring) : Res (option json) :=
  match v with
  | JNull => Throw (TypeError k)
  | JObj props => Ok (own_property k props)
  | _ => Ok None
  end.

(** [String(v)] for a parsed value.  An array joins the strings of its
    elements with commas, [null] elements giving the empty string; a plain
    object gives ["[object Object]"], unless it has a property [toString] of
    its own, which is not callable, and the conversion raises a TypeError. *)
Fixpoint String_json `{Engine} (v : json) : Res jsstring :=
  match v with
  | JNull => Ok (str "null")
  | JBool b => Ok (if b then str "true" else str "false")
  | JNum x => Ok (Number_toString x)
  | JStr s => Ok s
  | JArr items =>
      (fix join (l : list json) : Res jsstring :=
         match l with
         | [] => Ok []
         | x :: l' =>
             match (match x with JNull => Ok [] | _ => String_json x end) with
             | Throw e => Throw e
             | Ok a =>
                 match l' with
                 | [] => Ok a
                 | _ =>
                     match join l' with
                     | Throw e => Throw e
                     | Ok b => Ok (a ++ str "," ++ b)
                     end
                 end
             end
         end) items
  | JObj props =>
      match own_property (str "toString") props with
      | Some _ => Throw (TypeError (str "toString"))
      | None => Ok (str "[object Object]")
      end
  end.

(** [String(payload[k] ?? "").trim()] *)
Definition field_text `{Engine} (payload : json) (k : jsstring)
    : Res jsstring :=
  match member payload k with
  | Throw e => Throw e
  | Ok (None | Some JNull) => Ok (Str.trim [])
  | Ok (Some v) =>
      match String_json v with
      | Throw e => Throw e
      | Ok s => Ok (Str.trim s)
      end
  end.

(** [Number.isFinite] *)
Definition Number_isFinite (x : number) : bool :=
  match x with
  | S754_zero _ | S754_finite _ _ _ => true
  | S754_infinity _ | S754_nan => false
  end.

(** The number 1000, and the product of two numbers. *)
Definition thousand : number := S754_finite false 8796093022208000 (-43).
Definition times (x y : number) : number := SFmul 53 1024 x y.

(** [typeof payload.timestamp === "number" && Number.isFinite(...) ?
    Math.round(payload.timestamp * 1000) : undefined], for a payload that is
    not [null]. *)
Definition timestamp_ms `{Engine} (payload : json) : option number :=
  match payload with
  | JObj props =>
      match own_property (str "timestamp") props with
      | Some (JNum x) =>
          if Number_isFinite x then Some (Math_round (times x thousand))
          else None
      | _ => None
      end
  | _ => None
  end.

Definition shouldHandlePath (url : option jsstring) : bool :=
  let value := Str.trim (default [] url) in
  if negb (Str.truthy value) then false
  else
    let pathname := Str.before_query value in
    bool_decide (pathname = str "/webhook/wechat").

(** [handleInbound] makes no decision of its own before the host calls it
    drives; its promise settles as the pipeline of the runtime does. *)
Definition handleInbound (runtime : PluginRuntime) (params : InboundParams)
    : option jsstring :=
  pipeline runtime params.

(** The payloads of the responses. *)
Definition refused (error : jsstring) : json :=
  JObj [(str "ok", JBool false); (str "error", JStr error)].
Definition accepted : json := JObj [(str "ok", JBool true)].

(** The token of the request:
    [parseBearerToken(authorization) ?? x-openclaw-token ?? null] *)
Definition request_token (req : IncomingMessage) : option jsstring :=
  match parseBearerToken (authorization req) with
  | Some token => Some token
  | None => first_value (x_openclaw_token req)
  end.

(** [!token || String(token).trim() !== expectedToken] *)
Definition token_rejected (expectedToken : jsstring)
    (token : option jsstring) : bool :=
  match token with
  | None => true
  | Some t =>
      negb (Str.truthy t) || negb (bool_decide (Str.trim t = expectedToken))
  end.

(** The handler from the extraction of the fields on, lines 264 to 283. *)
Definition dispatch `{Engine} (runtime : PluginRuntime) (cfg : loc)
    (payload : json) : M Conn bool :=
  let* sender := lift (field_text payload (str "sender")) in
  let* text := lift (field_text payload (str "message")) in
  if negb (Str.truthy sender) || negb (Str.truthy text) then
    let* _ := respondJson 400 (refused (str "missing sender or message")) in
    ret true
  else
    let* _ := respondJson 202 accepted in
    let params := {| in_cfg := cfg; in_sender := sender; in_text := text;
                     in_timestampMs := timestamp_ms payload |} in
    let* _ := emit (Inbound params) in
    let* _ :=
      match handleInbound runtime params with
      | Some err =>
          emit (LogError (str "wechat: inbound processing failed: " ++ err))
      | None => ret tt
      end in
    ret true.

(** The handler from the reading of the body on, lines 256 to 283. *)
Definition receive `{Engine} (runtime : PluginRuntime) (cfg : loc)
    (req : IncomingMessage) : M Conn bool :=
  fun c =>
    match readJsonBody req (256 * 1024) c with
    | (Throw err, c') =>
        (let* _ := respondJson 400 (refused (String_exn err)) in ret true) c'
    | (Ok parsed, c') => dispatch runtime cfg parsed c'
    end.

Definition handleWechatWebhookRequest `{Engine}
    (slot : option PluginRuntime) (req : IncomingMessage) : M Conn bool :=
  if negb (bool_decide (Str.toUpperCase (default [] (method req)) = str "POST"))
  then ret false
  else if negb (shouldHandlePath (url req)) then ret false
  else
    let* runtime := lift (getWechatRuntime slot) in
    let cfg := loadConfig runtime in
    let account :=
      resolveWechatAccount (store runtime) cfg (Some DEFAULT_ACCOUNT_ID) in
    let* expectedToken :=
      lift (trim_or_empty (prop (config account) (str "inboundToken"))) in
    if Str.truthy expectedToken
       && token_rejected expectedToken (request_token req)
    then
      let* _ := respondJson 401 (refused (str "unauthorized")) in
      ret true
    else receive runtime cfg req.

(** The request passes the token check of the handler: no token is
    expected, or the token of the request is the expected one. *)
Definition authorized `{Engine} (runtime : PluginRuntime)
    (req : IncomingMessage) : bool :=
  let account :=
    resolveWechatAccount (store runtime) (loadConfig runtime)
      (Some DEFAULT_ACCOUNT_ID) in
  match trim_or_empty (prop (config account) (str "inboundToken")) with
  | Ok expectedToken =>
      negb (Str.truthy expectedToken
            && token_rejected expectedToken (request_token req))
  | Throw _ => false
  end.

(** The number of bytes a stream delivers. *)
Fixpoint stream_size (s : stream) : N :=
  match s with
  | Chunk buf rest => N.of_nat (length buf) + stream_size rest
  | Ended | Broken _ => 0
  end.

(** A response on which nothing was sent yet. *)
Definition fresh_response : ServerResponse :=
  {| headersSent := false; statusCode := 200; headers := []; written := None |}.

(** The entries of [cfg.channels] and the fields of [cfg.channels.wechat]
    in a store, empty when the value is nullish. *)
Definition channels_of (h : heap) (cfg : loc) : object :=
  let v := prop (own_props h (VRef cfg)) (str "channels") in
  if nullish v then ∅ else own_props h v.

Definition wechat_of (h : heap) (cfg : loc) : object :=
  let v := prop (channels_of h cfg) (str "wechat") in
  if nullish v then ∅ else own_props h v.

(** [next] in [h'] is the configuration [cfg] of [h] with the fields [set]
    of [channels.wechat] set and nothing else changed: the objects of [h]
    are in [h'] as they were; [next], its [channels] and its
    [channels.wechat] are new objects; the fields of [next] other than
    [channels] are those of [cfg], the entries of its [channels] other than
    [wechat] are those of [cfg.channels], and a field of its
    [channels.wechat] has the value [set] gives it, or else the value it has
    in [cfg]. *)
Record updates (h : heap) (cfg : loc) (set : object)
    (h' : heap) (next : loc) : Prop := {
  upd_store : forall l o, h !! l = Some o -> h' !! l = Some o;
  upd_new : h !! next = None;
  upd_top : forall k, k <> str "channels" ->
    own_props h' (VRef next) !! k = own_props h (VRef cfg) !! k;
  upd_inner : exists channels wechat,
    h !! channels = None /\ h !! wechat = None
    /\ own_props h' (VRef next) !! str "channels" = Some (VRef channels)
    /\ (forall k, k <> str "wechat" ->
          own_props h' (VRef channels) !! k = channels_of h cfg !! k)
    /\ own_props h' (VRef channels) !! str "wechat" = Some (VRef wechat)
    /\ (forall k,
          own_props h' (VRef wechat) !! k
          = match set !! k with
            | Some v => Some v
            | None => wechat_of h cfg !! k
            end);
}.

(** ** The rest of channel.ts and webhook.ts *)

(** [messaging.targetResolver.looksLikeId] *)
Definition looksLikeId (raw : jsstring) : bool :=
  Str.truthy (normalizeWechatTarget raw).

(** [config.isConfigured]: [Boolean(account.config.jsonBotBaseUrl?.trim())] *)
Definition isConfigured `{Engine} (account : ResolvedWechatJsonBotAccount)
    : Res bool :=
  match prop (config account) (str "jsonBotBaseUrl") with
  | VUndef | VNull => Ok false
  | VStr s => Ok (Str.truthy (Str.trim s))
  | _ => Throw (TypeError (str "trim"))
  end.

(** A reply payload of the host, as far as the delivery callback reads it. *)
Record ReplyBlock := {
  b_text : option jsstring;
  b_mediaUrls : option (list jsstring);
  b_mediaUrl : option jsstring;
}.

(** The gateway as the delivery callback sees it: the world, and the lines
    passed to [logger.error]. *)
Record Gateway := {
  net : World;
  logged : list jsstring;
}.

Definition on_world {A} (m : M World A) : M Gateway A :=
  fun g => let (r, w) := m (net g) in (r, {| net := w; logged := logged g |}).

Definition logger_error (msg : jsstring) : M Gateway unit :=
  fun g => (Ok tt, {| net := net g; logged := logged g ++ [msg] |}).

(** The loop [for (const mediaUrl of mediaUrls)] of the delivery callback. *)
Fixpoint deliver_media `{Network} (jsonBotBaseUrl sender : jsstring)
    (mediaUrls : list jsstring) : M Gateway unit :=
  match mediaUrls with
  | [] => ret tt
  | mediaUrl :: rest =>
      let* result :=
        on_world
          (postJson (jsonBotBaseUrl ++ str "/reply")
             {| session_name := sender; content := mediaUrl;
                type_ := str "file" |}
             15000) in
      let* _ :=
        if negb (ok result) then logger_error (failure (str " file") result)
        else ret tt in
      deliver_media jsonBotBaseUrl sender rest
  end.

(** [Array.isArray(payload.mediaUrls) ? payload.mediaUrls
     : payload.mediaUrl ? [payload.mediaUrl] : []], each trimmed, the empty
    ones dropped. *)
Definition media_of (payload : ReplyBlock) : list jsstring :=
  let mediaUrlsRaw :=
    match b_mediaUrls payload with
    | Some urls => urls
    | None =>
        match b_mediaUrl payload with
        | Some u => if Str.truthy u then [u] else []
        | None => []
        end
    end in
  filter (fun u => Str.truthy u = true) (map Str.trim mediaUrlsRaw).

(** The callback [deliver] that [handleInbound] hands to the dispatcher,
    lines 166 to 210. *)
Definition deliver `{Network} (jsonBotBaseUrl sender : jsstring)
    (payload : ReplyBlock) : M Gateway unit :=
  let text := Str.trim (default [] (b_text payload)) in
  let mediaUrls := media_of payload in
  let* _ :=
    if Str.truthy text then
      let* result :=
        on_world
          (postJson (jsonBotBaseUrl ++ str "/reply")
             {| session_name := sender; content := text; type_ := str "text" |}
             5000) in
      if negb (ok result) then logger_error (failure [] result) else ret tt
    else ret tt in
  deliver_media jsonBotBaseUrl sender mediaUrls.

(** The context [handleInbound] hands to [finalizeInboundContext], from the
    sender, the text, the envelope body and the route of the host. *)
Record InboundContext := {
  Body : jsstring;
  RawBody : jsstring;
  CommandBody : jsstring;
  From : jsstring;
  To : jsstring;
  SessionKey : jsstring;
  AccountId : jsstring;
  ChatType : jsstring;
  ConversationLabel : jsstring;
  SenderName : jsstring;
  SenderId : jsstring;
  Provider : jsstring;
  Surface : jsstring;
  OriginatingChannel : jsstring;
  OriginatingTo : jsstring;
}.

Definition inboundContext (sender text body sessionKey accountId : jsstring)
    : InboundContext :=
  {| Body := body;
     RawBody := text;
     CommandBody := text;
     From := str "wechat:" ++ sender;
     To := str "wechat:" ++ sender;
     SessionKey := sessionKey;
     AccountId := accountId;
     ChatType := str "direct";
     ConversationLabel := sender;
     SenderName := sender;
     SenderId := sender;
     Provider := str "wechat";
     Surface := str "wechat-jsonbot";
     OriginatingChannel := str "wechat";
     OriginatingTo := str "wechat:" ++ sender |}.

(** The bytes a stream delivers, and the error it ends with, if any. *)
Fixpoint stream_bytes (s : stream) : list Byte.byte :=
  match s with
  | Chunk buf rest => buf ++ stream_bytes rest
  | Ended | Broken _ => []
  end.

Fixpoint stream_error (s : stream) : option jsstring :=
  match s with
  | Chunk _ rest => stream_error rest
  | Ended => None
  | Broken err => Some err
  end.

(** The responses among some events. *)
Definition is_sent (e : event) : bool :=
  match e with Sent _ _ => true | _ => false end.

Definition responses (events : list event) : list event :=
  filter (fun e => is_sent e = true) events.

(** The arguments of a call of [handleInbound] carry a sender and a text
    that are not empty and have no white space around them. *)
Definition dispatchable (p : InboundParams) : Prop :=
  in_sender p <> [] /\ Str.trim (in_sender p) = in_sender p
  /\ in_text p <> [] /\ Str.trim (in_text p) = in_text p.

Definition dispatchable_event (e : event) : Prop :=
  match e with
  | Inbound p => dispatchable p
  | _ => True
  end.

(** ** A sample environment

    An engine that decodes ASCII and parses two texts, a gateway that
    accepts every call in 12 ms, and one that answers every call with 503. *)

Definition sample_message : json :=
  JObj [(str "sender", JStr (str "Alice")); (str "message", JStr (str "Hi"))].

Definition quoted (s : jsstring) : jsstring := [34] ++ s ++ [34].

(** The JSON text of [sample_message]. *)
Definition sample_text : jsstring :=
  str "{" ++ quoted (str "sender") ++ str ":" ++ quoted (str "Alice")
  ++ str "," ++ quoted (str "message") ++ str ":" ++ quoted (str "Hi")
  ++ str "}".

(** The bytes of an ASCII text. *)
Definition ascii_bytes (s : jsstring) : list Byte.byte :=
  map (fun c => default Byte.x00 (Byte.of_N c)) s.

Definition sample_engine : Engine :=
  {| Number_toString := fun _ => str "0";
     Math_round := fun x => x;
     utf8_decode := map Byte.to_N;
     Buffer_byteLength := fun s => N.of_nat (length s);
     JSON_parse := fun text =>
       if bool_decide (text = str "null") then inl JNull
       else if bool_decide (text = str "{}") then inl (JObj [])
       else if bool_decide (text = sample_text) then inl sample_message
       else inr (str "SyntaxError: Unexpected token");
     JSON_stringify := fun _ => str "{}";
     type_error := fun what => str "TypeError: " ++ what |}.

Definition accepting : Network :=
  {| fetch := fun _ _ =>
       Responds {| status := 200; statusText := str "OK"; body_text := Some [] |};
     elapsed := fun _ _ => 12 |}.

Definition unavailable : Network :=
  {| fetch := fun _ _ =>
       Responds {| status := 503; statusText := str "Service Unavailable";
                   body_text := Some (str "down") |};
     elapsed := fun _ _ => 12 |}.

(** A store with one configuration, at location 1, whose [channels.wechat]
    is the object [wechat]. *)
Definition store_with (wechat : object) : heap :=
  <[1%positive := <[str "channels" := VRef 2]> ∅]>
    (<[2%positive := <[str "wechat" := VRef 3]> ∅]>
       (<[3%positive := wechat]> ∅)).

Definition sample_world : World := {| sent := []; clock := 1700000000000 |}.

(** A runtime over [store_with], whose pipeline settles as [outcome] says;
    a POST to the webhook; and a connection on which nothing happened. *)
Definition sample_runtime (wechat : object)
    (outcome : option jsstring) : PluginRuntime :=
  {| store := store_with wechat;
     loadConfig := 1%positive;
     pipeline := fun _ => outcome |}.

Definition webhook_post (authorization token : header) (body : stream)
    : IncomingMessage :=
  {| method := Some (str "POST");
     url := Some (str "/webhook/wechat?from=gateway");
     authorization := authorization;
     x_openclaw_token := token;
     body := body |}.

Definition fresh_conn : Conn := {| res := fresh_response; trace := [] |}.

(** A body of 262145 bytes, in chunks of 65536 bytes and a last one of one
    byte. *)
Definition large_body : stream :=
  let chunk := repeat Byte.x00 (N.to_nat 65536) in
  Chunk chunk (Chunk chunk (Chunk chunk (Chunk chunk
    (Chunk [Byte.x00] Ended)))).

(** * Properties *)

(** ** Strings *)

Section StrFacts.

Import Str.

Variable p : N -> bool.

Lemma drop_start_all (w s : list N) :
  all p w = true -> drop_start p (w ++ s) = drop_start p s.
Proof.
  induction w as [|c w IH]; simpl; [reflexivity|].
  intros [Hc Hw]%andb_prop. rewrite Hc. auto.
Qed.

Lemma drop_start_keep (c : N) (s : list N) :
  p c = false -> drop_start p (c :: s) = c :: s.
Proof. intros Hc. simpl. rewrite Hc. reflexivity. Qed.

Lemma drop_end_all (w : list N) : all p w = true -> drop_end p w = [].
Proof.
  induction w as [|c w IH]; simpl; [reflexivity|].
  intros [Hc Hw]%andb_prop. rewrite IH, Hc; auto.
Qed.

Lemma drop_end_app_all (s w : list N) :
  all p w = true -> drop_end p (s ++ w) = drop_end p s.
Proof.
  intros Hw. induction s as [|c s IH]; simpl.
  - apply drop_end_all, Hw.
  - rewrite IH. reflexivity.
Qed.

(** A suffix is only dropped up to the last character that is kept. *)
Lemma drop_end_keep (pre : list N) (c : N) (s : list N) :
  p c = false -> drop_end p (pre ++ c :: s) = pre ++ c :: drop_end p s.
Proof.
  intros Hc. induction pre as [|x pre IH].
  - simpl. destruct (drop_end p s); [rewrite Hc|]; reflexivity.
  - change ((x :: pre) ++ c :: s) with (x :: (pre ++ c :: s)).
    cbn [drop_end]. rewrite IH. destruct pre; reflexivity.
Qed.

Lemma drop_end_idem (s : list N) : drop_end p (drop_end p s) = drop_end p s.
Proof.
  induction s as [|c s IH]; simpl; [reflexivity|].
  destruct (drop_end p s) as [|x t] eqn:E.
  - destruct (p c) eqn:Hc; simpl; [|rewrite Hc]; reflexivity.
  - cbn [drop_end]. cbn [drop_end] in IH. rewrite IH. reflexivity.
Qed.

Lemma drop_start_end_comm (s : list N) :
  drop_start p (drop_end p s) = drop_end p (drop_start p s).
Proof.
  induction s as [|c s IH]; [reflexivity|].
  cbn [drop_start]. destruct (p c) eqn:Hc.
  - rewrite <- IH. cbn [drop_end].
    destruct (drop_end p s); [rewrite Hc; reflexivity|].
    cbn [drop_start]. rewrite Hc. reflexivity.
  - cbn [drop_end]. destruct (drop_end p s);
      rewrite ?Hc; cbn [drop_start]; rewrite Hc; reflexivity.
Qed.

(** What is left has no character to drop at its end. *)
Lemma drop_end_last (s t : list N) (c : N) :
  drop_end p s = t ++ [c] -> p c = false.
Proof.
  revert t. induction s as [|x s IH]; intros t; simpl.
  - destruct t; discriminate.
  - destruct (drop_end p s) as [|y u] eqn:E.
    + destruct (p x) eqn:Hx.
      * destruct t; discriminate.
      * destruct t as [|? [|? ?]]; try discriminate.
        intros [= ->]. exact Hx.
    + destruct t as [|z t]; [discriminate|].
      intros [= -> Hu]. eapply IH. exact Hu.
Qed.

End StrFacts.

(** ** Target normalisation *)

Lemma trim_trim_end (s : list N) :
  Str.trim (Str.drop_end Str.is_ws s) = Str.trim s.
Proof.
  unfold Str.trim. rewrite drop_start_end_comm. apply drop_end_idem.
Qed.

Lemma same_letter_cases (a b : N) :
  Str.same_letter a b = true ->
  a = b \/ (65 <= b <= 90 /\ a = b + 32) \/ (97 <= b <= 122 /\ a = b - 32).
Proof.
  unfold Str.same_letter. rewrite !orb_true_iff, !andb_true_iff.
  rewrite !N.eqb_eq, !N.leb_le. tauto.
Qed.

Lemma same_letter_canonicalize (a b : N) :
  Str.same_letter a b = true ->
  (Str.canonicalize b =? Str.canonicalize a) = true.
Proof.
  intros H%same_letter_cases. apply N.eqb_eq. unfold Str.canonicalize.
  destruct H as [->|[[Hb ->]|[Hb ->]]]; [reflexivity| |].
  - replace ((97 <=? b) && (b <=? 122)) with false
      by (symmetry; apply andb_false_iff; rewrite N.leb_gt; lia).
    replace ((97 <=? b + 32) && (b + 32 <=? 122)) with true
      by (symmetry; apply andb_true_iff; rewrite !N.leb_le; lia).
    lia.
  - replace ((97 <=? b) && (b <=? 122)) with true
      by (symmetry; apply andb_true_iff; rewrite !N.leb_le; lia).
    replace ((97 <=? b - 32) && (b - 32 <=? 122)) with false
      by (symmetry; apply andb_false_iff; rewrite N.leb_gt; lia).
    reflexivity.
Qed.

(** A spelling of the pattern in any letter case is matched, and the match
    ends where the spelling does. *)
Lemma match_ci_spells (pat p rest : list N) :
  Str.spells p pat = true -> Str.match_ci pat (p ++ rest) = Some rest.
Proof.
  revert pat. induction p as [|a p IH]; intros [|b pat]; simpl;
    try discriminate; [reflexivity|].
  intros [Hab Hp]%andb_prop.
  rewrite (same_letter_canonicalize _ _ Hab). auto.
Qed.

(** A spelling of ["wx:"] is not matched by the first alternative. *)
Lemma match_ci_wx (p rest : list N) :
  Str.spells p (str "wx:") = true ->
  Str.match_ci (str "wechat:") (p ++ rest) = None.
Proof.
  change (str "wechat:") with [119; 101; 99; 104; 97; 116; 58].
  change (str "wx:") with [119; 120; 58].
  destruct p as [|a [|b p]];
    cbn [Str.spells]; rewrite ?andb_false_r; try discriminate.
  intros [_ [Hb _]%andb_prop]%andb_prop.
  apply same_letter_cases in Hb.
  cbn [app Str.match_ci].
  destruct (Str.canonicalize _ =? Str.canonicalize a); [|reflexivity].
  destruct Hb as [->|[[Hb _]|[_ ->]]]; [reflexivity|lia|reflexivity].
Qed.

Lemma strip_scheme_spells (p rest : list N) :
  Str.spells p (str "wechat:") = true \/ Str.spells p (str "wx:") = true ->
  Str.strip_scheme (p ++ rest) = rest.
Proof.
  unfold Str.strip_scheme. intros [H|H].
  - rewrite (match_ci_spells _ _ _ H). reflexivity.
  - rewrite (match_ci_wx _ _ H), (match_ci_spells _ _ _ H). reflexivity.
Qed.

(** A scheme prefix starts with a letter and ends with the colon, neither
    of which is white space. *)
Lemma scheme_shape (p : list N) :
  Str.spells p (str "wechat:") = true \/ Str.spells p (str "wx:") = true ->
  exists a q, p = a :: q ++ [58] /\ Str.is_ws a = false.
Proof.
  change (str "wechat:") with [119; 101; 99; 104; 97; 116; 58].
  change (str "wx:") with [119; 120; 58].
  intros [H|H].
  - destruct p as [|a [|b [|c [|d [|e [|f [|g [|? ?]]]]]]]];
      cbn [Str.spells] in H; rewrite ?andb_false_r in H; try discriminate.
    repeat (apply andb_prop in H; destruct H as [?%same_letter_cases H]).
    exists a, [b; c; d; e; f]. cbn [app].
    split; [do 7 f_equal; lia|].
    assert (a = 119 \/ a = 87) as [->| ->] by lia; reflexivity.
  - destruct p as [|a [|b [|c [|? ?]]]];
      cbn [Str.spells] in H; rewrite ?andb_false_r in H; try discriminate.
    repeat (apply andb_prop in H; destruct H as [?%same_letter_cases H]).
    exists a, [b]. cbn [app].
    split; [do 3 f_equal; lia|].
    assert (a = 119 \/ a = 87) as [->| ->] by lia; reflexivity.
Qed.

(** C6. A destination that starts with [wechat:] or [wx:], in any letter
    case and with white space around it, normalises to what follows the
    prefix, trimmed. *)
Theorem normalizeWechatTarget_prefixed (w1 p s w2 : list N) :
  Str.all Str.is_ws w1 = true ->
  Str.all Str.is_ws w2 = true ->
  Str.spells p (str "wechat:") = true \/ Str.spells p (str "wx:") = true ->
  normalizeWechatTarget (w1 ++ p ++ s ++ w2) = Str.trim s.
Proof.
  intros Hw1 Hw2 Hp. unfold normalizeWechatTarget.
  pose proof (strip_scheme_spells p (Str.drop_end Str.is_ws s) Hp) as Hs.
  destruct (scheme_shape p Hp) as (a & q & -> & Ha).
  assert (Str.trim (w1 ++ (a :: q ++ [58]) ++ s ++ w2)
          = (a :: q ++ [58]) ++ Str.drop_end Str.is_ws s) as ->.
  { unfold Str.trim. rewrite drop_start_all by exact Hw1.
    cbn [app]. rewrite drop_start_keep by exact Ha.
    rewrite <- !app_assoc. cbn [app].
    etransitivity;
      [apply (drop_end_keep Str.is_ws (a :: q) 58 (s ++ w2)); reflexivity|].
    rewrite drop_end_app_all by exact Hw2. reflexivity. }
  rewrite Hs. apply trim_trim_end.
Qed.

Lemma normalizeWechatTarget_prefixed_witness :
  normalizeWechatTarget (str "  " ++ str "WX:" ++ str " Bob " ++ str " ")
  = Str.trim (str " Bob ").
Proof.
  apply normalizeWechatTarget_prefixed; [reflexivity|reflexivity|].
  right. reflexivity.
Defined.

(** ** The outbound senders *)

Ltac run :=
  unfold bind, ret, throw, lift, Date_now, postJson, emit; cbn [fst snd].

Section Outbound.

Context `{Engine} `{Network}.

Lemma truthy_nonempty (s : list N) : Str.truthy s = true -> s <> [].
Proof. destruct s; [discriminate|]. intros _ [=]. Qed.

Lemma normalizeBaseUrl_string (raw : list N) :
  Str.truthy (Str.strip_trailing_slashes (Str.trim raw)) = true ->
  normalizeBaseUrl (VStr raw)
  = Ok (Some (Str.strip_trailing_slashes (Str.trim raw))).
Proof.
  unfold normalizeBaseUrl. cbn [trim_or_empty].
  destruct (Str.trim raw); [discriminate|reflexivity].
Qed.

Lemma require_base_url_truthy (b : list N) (w : World) :
  Str.truthy b = true -> require_base_url (Some b) w = (Ok b, w).
Proof. destruct b; [discriminate|reflexivity]. Qed.

Lemma normalizeBaseUrl_missing (raw : val) :
  raw = VUndef \/ (exists s, raw = VStr s /\ Str.trim s = []) ->
  normalizeBaseUrl raw = Ok None.
Proof.
  unfold normalizeBaseUrl.
  intros [->|(s & -> & Hs)]; cbn [trim_or_empty]; [|rewrite Hs]; reflexivity.
Qed.

(** A base URL of slashes only is stripped to the empty string, which the
    senders take for a missing one. *)
Lemma sendText_slashes_only (h : heap) (cfg : loc) (raw to text : list N)
    (w : World) :
  prop (resolveWechatConfig h cfg) (str "jsonBotBaseUrl") = VStr raw ->
  Str.truthy (Str.trim raw) = true ->
  Str.strip_trailing_slashes (Str.trim raw) = [] ->
  sendText h cfg to text w = (Throw missing_base_url, w).
Proof.
  intros Hraw Ht Hs. unfold sendText. run.
  cbn [config resolveWechatAccount]. rewrite Hraw.
  unfold normalizeBaseUrl. cbn [trim_or_empty]. rewrite Ht, Hs. reflexivity.
Qed.

(** C5. Without a base URL, absent or blank, both senders throw the error
    that names the missing key, and the world is as before: no call was
    issued. *)
Theorem send_without_base_url (h : heap) (cfg : loc) (to text : list N)
    (caption mediaUrl : option (list N)) (w : World) :
  let raw := prop (resolveWechatConfig h cfg) (str "jsonBotBaseUrl") in
  raw = VUndef \/ (exists s, raw = VStr s /\ Str.trim s = []) ->
  sendText h cfg to text w
  = (Throw (Error (str "wechat: missing channels.wechat.jsonBotBaseUrl")), w)
  /\ sendMedia h cfg to caption mediaUrl w
     = (Throw (Error (str "wechat: missing channels.wechat.jsonBotBaseUrl")), w).
Proof.
  intros raw Hraw. apply normalizeBaseUrl_missing in Hraw. subst raw.
  unfold sendText, sendMedia. run.
  cbn [config resolveWechatAccount]. rewrite Hraw. split; reflexivity.
Qed.

(** C8. [sendText] issues one POST, to the base URL without its trailing
    slashes followed by [/reply], with the normalised target, the text and
    the type ["text"]; when the result is ok it returns the message id made
    of the clock and the target as chat id, and otherwise it throws an error
    with the status and the error text. *)
Theorem sendText_posts (h : heap) (cfg : loc) (raw to text : list N)
    (w : World) :
  prop (resolveWechatConfig h cfg) (str "jsonBotBaseUrl") = VStr raw ->
  Str.truthy (Str.strip_trailing_slashes (Str.trim raw)) = true ->
  let baseUrl := Str.strip_trailing_slashes (Str.trim raw) in
  let post :=
    {| f_url := baseUrl ++ str "/reply";
       f_method := str "POST";
       f_headers := [(str "Content-Type", str "application/json")];
       f_body := {| session_name := normalizeWechatTarget to;
                    content := text;
                    type_ := str "text" |};
       f_abort_after := 5000 |} in
  let result := result_of (fetch (sent w) post) in
  let out := sendText h cfg to text w in
  (forall t c, baseUrl = t ++ [c] -> c <> 47 /\ c <> 92)
  /\ sent out.2 = sent w ++ [post]
  /\ out.1
     = if ok result then
         Ok {| channel := str "wechat";
               messageId := str "wechat:" ++ decimal (clock out.2);
               chatId := normalizeWechatTarget to |}
       else
         Throw (Error (str "wechat: json_bot /reply failed status="
                       ++ status_text (r_status result)
                       ++ str " err=" ++ error_text (r_error result))).
Proof.
  intros Hraw Hb baseUrl post result out. split.
  { intros t c Ht. apply drop_end_last in Ht. unfold Str.is_slash in Ht.
    apply orb_false_elim in Ht as [?%N.eqb_neq ?%N.eqb_neq]. auto. }
  subst out. unfold sendText. run.
  cbn [config resolveWechatAccount]. rewrite Hraw.
  rewrite (normalizeBaseUrl_string _ Hb).
  rewrite (require_base_url_truthy _ _ Hb).
  fold baseUrl. change (request _ _ 5000) with post. fold result.
  destruct (ok result); cbn; auto.
Qed.

(** C4. [sendMedia] first issues, when the trimmed caption is not empty,
    one POST of type ["text"] with a timeout of 5 s; when that one is not ok
    it throws and the file is never posted.  Otherwise it issues one POST of
    type ["file"] carrying the media URL with a timeout of 15 s, and throws
    an error with the status and error text of that call when it is not
    ok. *)
Theorem sendMedia_posts (h : heap) (cfg : loc) (raw to mediaUrl : list N)
    (text : option (list N)) (w : World) :
  prop (resolveWechatConfig h cfg) (str "jsonBotBaseUrl") = VStr raw ->
  Str.truthy (Str.strip_trailing_slashes (Str.trim raw)) = true ->
  let url := Str.strip_trailing_slashes (Str.trim raw) ++ str "/reply" in
  let caption := Str.trim (default [] text) in
  let captionPost :=
    {| f_url := url;
       f_method := str "POST";
       f_headers := [(str "Content-Type", str "application/json")];
       f_body := {| session_name := normalizeWechatTarget to;
                    content := caption;
                    type_ := str "text" |};
       f_abort_after := 5000 |} in
  let filePost :=
    {| f_url := url;
       f_method := str "POST";
       f_headers := [(str "Content-Type", str "application/json")];
       f_body := {| session_name := normalizeWechatTarget to;
                    content := mediaUrl;
                    type_ := str "file" |};
       f_abort_after := 15000 |} in
  let before := if Str.truthy caption then [captionPost] else [] in
  let captionResult := result_of (fetch (sent w) captionPost) in
  let fileResult := result_of (fetch (sent w ++ before) filePost) in
  let out := sendMedia h cfg to text (Some mediaUrl) w in
  if Str.truthy caption && negb (ok captionResult) then
    sent out.2 = sent w ++ [captionPost]
    /\ out.1
       = Throw (Error (str "wechat: json_bot /reply caption failed status="
                       ++ status_text (r_status captionResult)
                       ++ str " err=" ++ error_text (r_error captionResult)))
  else
    sent out.2 = sent w ++ before ++ [filePost]
    /\ out.1
       = if ok fileResult then
           Ok {| channel := str "wechat";
                 messageId := str "wechat:" ++ decimal (clock out.2);
                 chatId := normalizeWechatTarget to |}
         else
           Throw (Error (str "wechat: json_bot /reply file failed status="
                         ++ status_text (r_status fileResult)
                         ++ str " err=" ++ error_text (r_error fileResult))).
Proof.
  intros Hraw Hb. cbv zeta. unfold sendMedia. run.
  cbn [config resolveWechatAccount]. rewrite Hraw.
  rewrite (normalizeBaseUrl_string _ Hb).
  rewrite (require_base_url_truthy _ _ Hb).
  unfold request, String_opt. cbn [default].
  change (N.max 1 5000) with 5000. change (N.max 1 15000) with 15000.
  destruct (Str.truthy (Str.trim (default [] text))); cbn [andb].
  - destruct (ok (result_of (fetch (sent w) _))); cbn [negb sent fst snd].
    + rewrite <- app_assoc. cbn [app].
      destruct (ok (result_of (fetch (sent w ++ _) _))); cbn; auto.
    + auto.
  - cbn [sent fst snd app]. rewrite app_nil_r.
    destruct (ok (result_of (fetch (sent w) _))); cbn; auto.
Qed.

End Outbound.

Lemma sendText_posts_witness :
  sent (@sendText sample_engine accepting
          (store_with (<[str "jsonBotBaseUrl" := VStr (str "http://h/")]> ∅))
          1%positive (str "wx:Bob") (str "hello") sample_world).2
  = [ {| f_url := str "http://h/reply";
         f_method := str "POST";
         f_headers := [(str "Content-Type", str "application/json")];
         f_body := {| session_name := str "Bob";
                      content := str "hello";
                      type_ := str "text" |};
         f_abort_after := 5000 |} ].
Proof.
  exact (proj1 (proj2 (@sendText_posts sample_engine accepting
    (store_with (<[str "jsonBotBaseUrl" := VStr (str "http://h/")]> ∅))
    1%positive (str "http://h/") (str "wx:Bob") (str "hello") sample_world
    eq_refl eq_refl))).
Defined.

Lemma send_without_base_url_witness :
  @sendText sample_engine accepting
    (store_with (<[str "jsonBotBaseUrl" := VStr (str "  ")]> ∅))
    1%positive (str "Bob") (str "hello") sample_world
  = (Throw (Error (str "wechat: missing channels.wechat.jsonBotBaseUrl")),
     sample_world).
Proof.
  apply (@send_without_base_url sample_engine accepting _ _ _ _ None None).
  right. exists (str "  "). split; reflexivity.
Defined.

Lemma sendMedia_posts_witness :
  (@sendMedia sample_engine unavailable
     (store_with (<[str "jsonBotBaseUrl" := VStr (str "http://h/")]> ∅))
     1%positive (str "wx:Bob") (Some (str " look ")) (Some (str "http://m/a.png"))
     sample_world).1
  = Throw (Error (str
      "wechat: json_bot /reply caption failed status=503 err=down")).
Proof.
  exact (proj2 (@sendMedia_posts sample_engine unavailable
    (store_with (<[str "jsonBotBaseUrl" := VStr (str "http://h/")]> ∅))
    1%positive (str "http://h/") (str "wx:Bob") (str "http://m/a.png")
    (Some (str " look ")) sample_world eq_refl eq_refl)).
Defined.

(** ** The webhook handler *)

Lemma trim_all_ws (s : list N) : Str.all Str.is_ws s = true -> Str.trim s = [].
Proof.
  intros Hs. unfold Str.trim.
  rewrite <- (app_nil_r s), drop_start_all by exact Hs. reflexivity.
Qed.

(** A string is what comes before its first question mark, followed by
    nothing or by the question mark and the rest. *)
Lemma before_query_split (u : list N) :
  u = Str.before_query u \/ exists r, u = Str.before_query u ++ 63 :: r.
Proof.
  induction u as [|c u IH]; [left; reflexivity|].
  cbn [Str.before_query]. destruct (c =? 63) eqn:Hc.
  - apply N.eqb_eq in Hc as ->. right. exists u. reflexivity.
  - destruct IH as [IH|[r IH]].
    + left. congruence.
    + right. exists r. cbn [app]. congruence.
Qed.

Lemma shouldHandlePath_webhook (u : list N) :
  Str.before_query u = str "/webhook/wechat" ->
  shouldHandlePath (Some u) = true.
Proof.
  intros Hu. unfold shouldHandlePath. change (default [] (Some u)) with u.
  destruct (before_query_split u) as [E|[r E]]; rewrite Hu in E; subst u.
  - reflexivity.
  - assert (Str.trim (str "/webhook/wechat" ++ 63 :: r)
            = str "/webhook/wechat" ++ 63 :: Str.drop_end Str.is_ws r) as ->.
    { unfold Str.trim.
      change (Str.drop_start Str.is_ws (str "/webhook/wechat" ++ 63 :: r))
        with (str "/webhook/wechat" ++ 63 :: r).
      apply drop_end_keep. reflexivity. }
    reflexivity.
Qed.

Section Webhook.

Context `{Engine}.

Lemma respondJson_fresh (statusCode : N) (payload : json) (c : Conn) :
  headersSent (res c) = false ->
  respondJson statusCode payload c
  = (Ok tt,
     {| res :=
          {| headersSent := true;
             statusCode := statusCode;
             headers :=
               setHeader (str "Content-Length")
                 (decimal (Buffer_byteLength (JSON_stringify payload)))
                 (setHeader (str "Content-Type")
                    (str "application/json; charset=utf-8") (headers (res c)));
             written := Some (JSON_stringify payload) |};
        trace := trace c ++ [Sent statusCode payload] |}).
Proof. intros Hc. unfold respondJson. rewrite Hc. reflexivity. Qed.

(** A POST to the webhook path is taken by the handler, which then checks
    the token. *)
Lemma handler_checks_token (rt : PluginRuntime) (req : IncomingMessage)
    (u : list N) (c : Conn) :
  method req = Some (str "POST") ->
  url req = Some u ->
  Str.before_query u = str "/webhook/wechat" ->
  handleWechatWebhookRequest (setWechatRuntime rt None) req c
  = match trim_or_empty
            (prop (resolveWechatConfig (store rt) (loadConfig rt))
               (str "inboundToken")) with
    | Throw e => (Throw e, c)
    | Ok expectedToken =>
        if Str.truthy expectedToken
           && token_rejected expectedToken (request_token req)
        then
          (let* _ := respondJson 401 (refused (str "unauthorized")) in
           ret true) c
        else receive rt (loadConfig rt) req c
    end.
Proof.
  intros Hm Hu Hp. unfold handleWechatWebhookRequest.
  rewrite Hm, Hu, (shouldHandlePath_webhook _ Hp).
  change (default [] (Some (str "POST"))) with (str "POST").
  change (bool_decide (Str.toUpperCase (str "POST") = str "POST")) with true.
  cbn [negb setWechatRuntime getWechatRuntime]. run.
  cbn [config resolveWechatAccount].
  destruct (trim_or_empty _) as [expectedToken|e]; [|reflexivity].
  destruct (Str.truthy expectedToken && _); reflexivity.
Qed.

Lemma handler_authorized (rt : PluginRuntime) (req : IncomingMessage)
    (u : list N) (c : Conn) :
  method req = Some (str "POST") ->
  url req = Some u ->
  Str.before_query u = str "/webhook/wechat" ->
  authorized rt req = true ->
  handleWechatWebhookRequest (setWechatRuntime rt None) req c
  = receive rt (loadConfig rt) req c.
Proof.
  intros Hm Hu Hp Ha. rewrite (handler_checks_token _ _ _ _ Hm Hu Hp).
  unfold authorized in Ha. cbn [config resolveWechatAccount] in Ha.
  destruct (trim_or_empty _); [|discriminate].
  apply negb_true_iff in Ha. rewrite Ha. reflexivity.
Qed.

Lemma readJsonBody_res (req : IncomingMessage) (maxBytes : N) (c : Conn) :
  res (readJsonBody req maxBytes c).2 = res c.
Proof.
  unfold readJsonBody. run.
  destruct (read_chunks _ _ _ _) as [chunks|e]; [|reflexivity].
  destruct (negb _); [reflexivity|].
  destruct (JSON_parse _); reflexivity.
Qed.

(** Once the bytes read and those still to come pass the cap, the loop
    throws, whatever the stream does later. *)
Lemma read_chunks_oversized (maxBytes : N) (s : stream) :
  forall (size : N) (chunks : list (list Byte.byte)),
  size <= maxBytes ->
  maxBytes < size + stream_size s ->
  read_chunks maxBytes size chunks s = Throw (Error (str "payload too large")).
Proof.
  induction s as [|buf rest IH|err]; intros size chunks Hle Hlt;
    cbn [stream_size read_chunks] in *; try lia.
  destruct (maxBytes <? size + N.of_nat (length buf)) eqn:E; [reflexivity|].
  apply N.ltb_ge in E. apply IH; lia.
Qed.

Lemma receive_same_body (rt : PluginRuntime) (cfg : loc)
    (req req' : IncomingMessage) (c : Conn) :
  body req' = body req -> receive rt cfg req' c = receive rt cfg req c.
Proof. intros Hb. unfold receive, readJsonBody. rewrite Hb. reflexivity. Qed.

(** C1. With a token configured, a POST to the webhook whose bearer token
    and whose token header both differ from it is answered 401 with the
    payload [{ok:false, error:"unauthorized"}]; the handler returns [true],
    and the response is its only event: the body is not parsed and
    [handleInbound] is not called. *)
Theorem unauthorized_request (rt : PluginRuntime) (req : IncomingMessage)
    (u token : list N) (c : Conn) :
  method req = Some (str "POST") ->
  url req = Some u ->
  Str.before_query u = str "/webhook/wechat" ->
  prop (resolveWechatConfig (store rt) (loadConfig rt)) (str "inboundToken")
  = VStr token ->
  Str.truthy (Str.trim token) = true ->
  Str.trim <$> parseBearerToken (authorization req) <> Some (Str.trim token) ->
  Str.trim <$> first_value (x_openclaw_token req) <> Some (Str.trim token) ->
  headersSent (res c) = false ->
  let out := handleWechatWebhookRequest (setWechatRuntime rt None) req c in
  let payload :=
    JObj [(str "ok", JBool false); (str "error", JStr (str "unauthorized"))] in
  out.1 = Ok true
  /\ statusCode (res out.2) = 401
  /\ written (res out.2) = Some (JSON_stringify payload)
  /\ trace out.2 = trace c ++ [Sent 401 payload].
Proof.
  intros Hm Hu Hp Htok Ht Hbearer Hheader Hc. cbv zeta.
  rewrite (handler_checks_token _ _ _ _ Hm Hu Hp), Htok.
  cbn [trim_or_empty]. rewrite Ht. cbn [andb].
  assert (token_rejected (Str.trim token) (request_token req) = true) as ->.
  { unfold request_token, token_rejected.
    destruct (parseBearerToken (authorization req)) as [t|].
    - apply orb_true_iff. right. apply negb_true_iff, bool_decide_eq_false.
      intros E. apply Hbearer. cbn. rewrite E. reflexivity.
    - destruct (first_value (x_openclaw_token req)) as [t|]; [|reflexivity].
      apply orb_true_iff. right. apply negb_true_iff, bool_decide_eq_false.
      intros E. apply Hheader. cbn. rewrite E. reflexivity. }
  run. rewrite (respondJson_fresh _ _ _ Hc). cbn. auto.
Qed.

(** C7. A body of more than 256 KiB makes the reading stage throw before
    [JSON.parse] is called: the handler answers 400 with the error as text
    and returns [true], and the response is its only event. *)
Theorem oversized_body (rt : PluginRuntime) (req : IncomingMessage)
    (u : list N) (c : Conn) :
  method req = Some (str "POST") ->
  url req = Some u ->
  Str.before_query u = str "/webhook/wechat" ->
  authorized rt req = true ->
  262144 < stream_size (body req) ->
  headersSent (res c) = false ->
  let out := handleWechatWebhookRequest (setWechatRuntime rt None) req c in
  let payload :=
    JObj [(str "ok", JBool false);
          (str "error", JStr (str "Error: payload too large"))] in
  readJsonBody req (256 * 1024) c
  = (Throw (Error (str "payload too large")), c)
  /\ out.1 = Ok true
  /\ statusCode (res out.2) = 400
  /\ written (res out.2) = Some (JSON_stringify payload)
  /\ trace out.2 = trace c ++ [Sent 400 payload].
Proof.
  intros Hm Hu Hp Ha Hsize Hc. cbv zeta.
  assert (readJsonBody req (256 * 1024) c
          = (Throw (Error (str "payload too large")), c)) as Hread.
  { unfold readJsonBody. run.
    rewrite read_chunks_oversized; [reflexivity|lia|exact Hsize]. }
  split; [exact Hread|].
  rewrite (handler_authorized _ _ _ _ Hm Hu Hp Ha). unfold receive.
  rewrite Hread. run. rewrite (respondJson_fresh _ _ _ Hc). cbn. auto.
Qed.

(** C2. A request that passes the token check and whose body gives a
    sender and a message that are not empty is answered 202 with [{ok:true}]
    before [handleInbound] is called; when the processing that follows
    fails, the error is logged, and the response is the same as when it
    succeeds. *)
Theorem accepted_request (rt : PluginRuntime) (req : IncomingMessage)
    (u sender text : list N) (payload : json) (c : Conn) :
  method req = Some (str "POST") ->
  url req = Some u ->
  Str.before_query u = str "/webhook/wechat" ->
  authorized rt req = true ->
  (readJsonBody req (256 * 1024) c).1 = Ok payload ->
  field_text payload (str "sender") = Ok sender ->
  field_text payload (str "message") = Ok text ->
  Str.truthy sender = true ->
  Str.truthy text = true ->
  headersSent (res c) = false ->
  let read := (readJsonBody req (256 * 1024) c).2 in
  let params :=
    {| in_cfg := loadConfig rt; in_sender := sender; in_text := text;
       in_timestampMs := timestamp_ms payload |} in
  let out := handleWechatWebhookRequest (setWechatRuntime rt None) req c in
  out.1 = Ok true
  /\ headersSent (res out.2) = true
  /\ statusCode (res out.2) = 202
  /\ written (res out.2) = Some (JSON_stringify (JObj [(str "ok", JBool true)]))
  /\ trace out.2
     = trace read
       ++ [Sent 202 (JObj [(str "ok", JBool true)]); Inbound params]
       ++ match pipeline rt params with
          | Some err =>
              [LogError (str "wechat: inbound processing failed: " ++ err)]
          | None => []
          end.
Proof.
  intros Hm Hu Hp Ha Hread Hs Ht Hsender Htext Hc. cbv zeta.
  rewrite (handler_authorized _ _ _ _ Hm Hu Hp Ha). unfold receive.
  pose proof (readJsonBody_res req (256 * 1024) c) as Hres.
  destruct (readJsonBody req (256 * 1024) c) as [r c'].
  cbn [fst snd] in *. subst r. rewrite <- Hres in Hc.
  unfold dispatch, handleInbound. run. rewrite Hs, Ht, Hsender, Htext.
  cbn [negb orb]. rewrite (respondJson_fresh _ _ _ Hc).
  destruct (pipeline rt _); cbn; rewrite <- ?app_assoc; auto.
Qed.

(** When both fields convert to strings and one of them is empty, the
    handler answers 400 and [handleInbound] is not called. *)
Lemma missing_field_rejected (rt : PluginRuntime) (req : IncomingMessage)
    (u sender text : list N) (payload : json) (c : Conn) :
  method req = Some (str "POST") ->
  url req = Some u ->
  Str.before_query u = str "/webhook/wechat" ->
  authorized rt req = true ->
  (readJsonBody req (256 * 1024) c).1 = Ok payload ->
  field_text payload (str "sender") = Ok sender ->
  field_text payload (str "message") = Ok text ->
  sender = [] \/ text = [] ->
  headersSent (res c) = false ->
  let read := (readJsonBody req (256 * 1024) c).2 in
  let out := handleWechatWebhookRequest (setWechatRuntime rt None) req c in
  let refusal :=
    JObj [(str "ok", JBool false);
          (str "error", JStr (str "missing sender or message"))] in
  out.1 = Ok true
  /\ statusCode (res out.2) = 400
  /\ written (res out.2) = Some (JSON_stringify refusal)
  /\ trace out.2 = trace read ++ [Sent 400 refusal].
Proof.
  intros Hm Hu Hp Ha Hread Hs Ht Hempty Hc. cbv zeta.
  rewrite (handler_authorized _ _ _ _ Hm Hu Hp Ha). unfold receive.
  pose proof (readJsonBody_res req (256 * 1024) c) as Hres.
  destruct (readJsonBody req (256 * 1024) c) as [r c'].
  cbn [fst snd] in *. subst r. rewrite <- Hres in Hc.
  unfold dispatch. run. rewrite Hs, Ht.
  assert (negb (Str.truthy sender) || negb (Str.truthy text) = true) as ->.
  { destruct Hempty as [-> | ->]; [reflexivity|apply orb_true_r]. }
  rewrite (respondJson_fresh _ _ _ Hc). cbn. auto.
Qed.

(** C3. The claim fails on a body that parses to [null]: the extraction of
    the sender throws, so the handler fails with the TypeError and sends no
    response, where the claim asks for the answer 400. *)
Theorem null_payload_throws (rt : PluginRuntime) (req : IncomingMessage)
    (u : list N) (c : Conn) :
  method req = Some (str "POST") ->
  url req = Some u ->
  Str.before_query u = str "/webhook/wechat" ->
  authorized rt req = true ->
  (readJsonBody req (256 * 1024) c).1 = Ok JNull ->
  let out := handleWechatWebhookRequest (setWechatRuntime rt None) req c in
  out.1 = Throw (TypeError (str "sender")) /\ res out.2 = res c.
Proof.
  intros Hm Hu Hp Ha Hread. cbv zeta.
  rewrite (handler_authorized _ _ _ _ Hm Hu Hp Ha). unfold receive.
  pose proof (readJsonBody_res req (256 * 1024) c) as Hres.
  destruct (readJsonBody req (256 * 1024) c) as [r c'].
  cbn [fst snd] in *. subst r. unfold dispatch. run. cbn. auto.
Qed.

(** C9. A configured token of white space only is no token: the handler
    goes on to read the body, as it does when no token is configured, and
    what it does depends on the body alone, not on the token headers. *)
Theorem blank_token_no_check (rt rt0 : PluginRuntime)
    (req req' : IncomingMessage) (u u' token : list N) (c : Conn) :
  method req = Some (str "POST") ->
  url req = Some u ->
  Str.before_query u = str "/webhook/wechat" ->
  method req' = Some (str "POST") ->
  url req' = Some u' ->
  Str.before_query u' = str "/webhook/wechat" ->
  body req' = body req ->
  prop (resolveWechatConfig (store rt) (loadConfig rt)) (str "inboundToken")
  = VStr token ->
  Str.all Str.is_ws token = true ->
  prop (resolveWechatConfig (store rt0) (loadConfig rt0)) (str "inboundToken")
  = VUndef ->
  handleWechatWebhookRequest (setWechatRuntime rt None) req c
  = receive rt (loadConfig rt) req c
  /\ handleWechatWebhookRequest (setWechatRuntime rt None) req' c
     = handleWechatWebhookRequest (setWechatRuntime rt None) req c
  /\ handleWechatWebhookRequest (setWechatRuntime rt0 None) req c
     = receive rt0 (loadConfig rt0) req c.
Proof.
  intros Hm Hu Hp Hm' Hu' Hp' Hb Htok Hws Hnone.
  assert (forall r, authorized rt r = true) as Ha.
  { intros r. unfold authorized. cbn [config resolveWechatAccount].
    rewrite Htok. cbn [trim_or_empty]. rewrite (trim_all_ws _ Hws).
    reflexivity. }
  assert (authorized rt0 req = true) as Ha0.
  { unfold authorized. cbn [config resolveWechatAccount].
    rewrite Hnone. reflexivity. }
  rewrite (handler_authorized _ _ _ _ Hm Hu Hp (Ha req)).
  rewrite (handler_authorized _ _ _ _ Hm' Hu' Hp' (Ha req')).
  rewrite (handler_authorized _ _ _ _ Hm Hu Hp Ha0).
  split; [reflexivity|]. split; [|reflexivity].
  apply receive_same_body, Hb.
Qed.

End Webhook.

Lemma unauthorized_request_witness :
  statusCode (res (@handleWechatWebhookRequest sample_engine
    (setWechatRuntime
       (sample_runtime (<[str "inboundToken" := VStr (str " s3cret ")]> ∅) None)
       None)
    (webhook_post (Single (str "Bearer guess")) (Single (str "s3cre")) Ended)
    fresh_conn).2) = 401.
Proof.
  refine (proj1 (proj2 (@unauthorized_request sample_engine
    (sample_runtime (<[str "inboundToken" := VStr (str " s3cret ")]> ∅) None)
    (webhook_post (Single (str "Bearer guess")) (Single (str "s3cre")) Ended)
    (str "/webhook/wechat?from=gateway") (str " s3cret ") fresh_conn
    eq_refl eq_refl eq_refl eq_refl eq_refl _ _ eq_refl)));
    vm_compute; discriminate.
Defined.

Lemma oversized_body_witness :
  statusCode (res (@handleWechatWebhookRequest sample_engine
    (setWechatRuntime (sample_runtime ∅ None) None)
    (webhook_post Absent Absent large_body) fresh_conn).2) = 400.
Proof.
  refine (proj1 (proj2 (proj2 (@oversized_body sample_engine
    (sample_runtime ∅ None) (webhook_post Absent Absent large_body)
    (str "/webhook/wechat?from=gateway") fresh_conn
    eq_refl eq_refl eq_refl eq_refl _ eq_refl)))).
  vm_compute. reflexivity.
Defined.

Lemma accepted_request_witness :
  trace (@handleWechatWebhookRequest sample_engine
    (setWechatRuntime (sample_runtime ∅ (Some (str "Error: no route"))) None)
    (webhook_post Absent Absent (Chunk (ascii_bytes sample_text) Ended))
    fresh_conn).2
  = [ Parse sample_text;
      Sent 202 (JObj [(str "ok", JBool true)]);
      Inbound {| in_cfg := 1%positive; in_sender := str "Alice";
                 in_text := str "Hi"; in_timestampMs := None |};
      LogError (str "wechat: inbound processing failed: Error: no route") ].
Proof.
  exact (proj2 (proj2 (proj2 (proj2 (@accepted_request sample_engine
    (sample_runtime ∅ (Some (str "Error: no route")))
    (webhook_post Absent Absent (Chunk (ascii_bytes sample_text) Ended))
    (str "/webhook/wechat?from=gateway") (str "Alice") (str "Hi")
    sample_message fresh_conn
    eq_refl eq_refl eq_refl eq_refl eq_refl eq_refl eq_refl eq_refl eq_refl
    eq_refl))))).
Defined.

Lemma null_payload_throws_witness :
  let out :=
    @handleWechatWebhookRequest sample_engine
      (setWechatRuntime (sample_runtime ∅ None) None)
      (webhook_post Absent Absent (Chunk (ascii_bytes (str "null")) Ended))
      fresh_conn in
  out.1 = Throw (Foreign (str "TypeError: sender"))
  /\ res out.2 = fresh_response.
Proof.
  exact (@null_payload_throws sample_engine
    (sample_runtime ∅ None)
    (webhook_post Absent Absent (Chunk (ascii_bytes (str "null")) Ended))
    (str "/webhook/wechat?from=gateway") fresh_conn
    eq_refl eq_refl eq_refl eq_refl eq_refl).
Defined.

Lemma blank_token_no_check_witness :
  @handleWechatWebhookRequest sample_engine
    (setWechatRuntime
       (sample_runtime (<[str "inboundToken" := VStr (str "   ")]> ∅) None) None)
    (webhook_post (Single (str "Bearer guess")) Absent Ended) fresh_conn
  = @handleWechatWebhookRequest sample_engine
      (setWechatRuntime
         (sample_runtime (<[str "inboundToken" := VStr (str "   ")]> ∅) None)
         None)
      (webhook_post Absent Absent Ended) fresh_conn.
Proof.
  exact (proj1 (proj2 (@blank_token_no_check sample_engine
    (sample_runtime (<[str "inboundToken" := VStr (str "   ")]> ∅) None)
    (sample_runtime ∅ None)
    (webhook_post Absent Absent Ended)
    (webhook_post (Single (str "Bearer guess")) Absent Ended)
    (str "/webhook/wechat?from=gateway") (str "/webhook/wechat?from=gateway")
    (str "   ") fresh_conn
    eq_refl eq_refl eq_refl eq_refl eq_refl eq_refl eq_refl eq_refl eq_refl
    eq_refl))).
Defined.

(** ** The onboarding operations *)

Lemma alloc_fresh (h : heap) (o : object) :
  h !! (alloc h o).2 = None /\ (alloc h o).1 = <[(alloc h o).2 := o]> h.
Proof.
  unfold alloc. cbn [fst snd]. split; [|reflexivity].
  apply not_elem_of_dom, is_fresh.
Qed.

Lemma own_props_insert_eq (h : heap) (l : loc) (o : object) :
  own_props (<[l := o]> h) (VRef l) = o.
Proof. cbn [own_props]. rewrite lookup_insert_eq. reflexivity. Qed.

Lemma own_props_insert_ne (h : heap) (l l' : loc) (o : object) :
  l <> l' -> own_props (<[l := o]> h) (VRef l') = own_props h (VRef l').
Proof. intros Hl. cbn [own_props]. rewrite lookup_insert_ne by done. done. Qed.

(** The three allocations that [applyWechatConfig] and [disable] share. *)
Lemma rebuild_updates (h : heap) (cfg : loc) (set w : object) :
  (forall k, w !! k = match set !! k with
                      | Some v => Some v
                      | None => wechat_of h cfg !! k
                      end) ->
  let (h1, wechat) := alloc h w in
  let (h2, channels) :=
    alloc h1 (<[str "wechat" := VRef wechat]> (channels_of h cfg)) in
  let (h3, next) :=
    alloc h2 (<[str "channels" := VRef channels]> (own_props h (VRef cfg))) in
  updates h cfg set h3 next.
Proof.
  intros Hw.
  destruct (alloc_fresh h w) as [F1 E1].
  destruct (alloc h w) as [h1 l1]. cbn [fst snd] in *.
  destruct (alloc_fresh h1 (<[str "wechat" := VRef l1]> (channels_of h cfg)))
    as [F2 E2].
  destruct (alloc h1 _) as [h2 l2]. cbn [fst snd] in *.
  destruct (alloc_fresh h2
              (<[str "channels" := VRef l2]> (own_props h (VRef cfg))))
    as [F3 E3].
  destruct (alloc h2 _) as [h3 l3]. cbn [fst snd] in *.
  subst h1 h2 h3.
  assert (l2 <> l1) as N21 by (intros ->; rewrite lookup_insert_eq in F2; done).
  assert (l3 <> l2) as N32 by (intros ->; rewrite lookup_insert_eq in F3; done).
  assert (l3 <> l1) as N31.
  { intros ->. rewrite lookup_insert_ne, lookup_insert_eq in F3; done. }
  rewrite lookup_insert_ne in F2 by done.
  rewrite !lookup_insert_ne in F3 by done.
  split.
  - intros l o Hl. rewrite !lookup_insert_ne; [done|congruence..].
  - exact F3.
  - intros k Hk. rewrite own_props_insert_eq.
    rewrite lookup_insert_ne by done. reflexivity.
  - exists l2, l1.
    rewrite own_props_insert_eq, (own_props_insert_ne _ l3 l2) by done.
    rewrite own_props_insert_eq.
    rewrite (own_props_insert_ne _ l3 l1), (own_props_insert_ne _ l2 l1)
      by done.
    rewrite own_props_insert_eq, !lookup_insert_eq.
    repeat split; try done.
    intros k Hk. rewrite lookup_insert_ne by done. reflexivity.
Qed.

Section Onboarding.

Context `{Engine}.

(** C10. [applyWechatConfig], [configure] through it, and [disable] change
    no object of the store they are given, and return a new configuration
    that differs from the given one only in [channels.wechat], where the
    patched fields have their new values and [enabled] is [true], resp.
    where [enabled] is [false], every other field being kept. *)
Theorem onboarding_frame (h : heap) (cfg : loc) :
  (forall patch, exists next h',
     applyWechatConfig cfg patch h = (Ok next, h')
     /\ updates h cfg (<[str "enabled" := VBool true]> patch) h' next)
  /\ (forall nextBaseUrl nextInboundToken, exists next h',
        let baseUrl :=
          match Str.trim nextBaseUrl with
          | [] => VUndef
          | trimmed => VStr (Str.strip_trailing_slashes trimmed)
          end in
        let token :=
          match Str.trim (default [] nextInboundToken) with
          | [] => VUndef
          | trimmed => VStr trimmed
          end in
        configure cfg nextBaseUrl nextInboundToken h
        = (Ok (next, DEFAULT_ACCOUNT_ID), h')
        /\ updates h cfg
             (<[str "enabled" := VBool true]>
                (<[str "inboundToken" := token]>
                   (<[str "jsonBotBaseUrl" := baseUrl]> ∅))) h' next)
  /\ (exists next h',
        disable cfg h = (Ok next, h')
        /\ updates h cfg (<[str "enabled" := VBool false]> ∅) h' next).
Proof.
  assert (forall patch, exists next h',
     applyWechatConfig cfg patch h = (Ok next, h')
     /\ updates h cfg (<[str "enabled" := VBool true]> patch) h' next) as Happly.
  { intros patch.
    pose proof (rebuild_updates h cfg (<[str "enabled" := VBool true]> patch)
      (<[str "enabled" := VBool true]> (patch ∪ wechat_of h cfg))) as Hr.
    unfold applyWechatConfig. fold (channels_of h cfg). fold (wechat_of h cfg).
    destruct (alloc h _) as [h1 l1]. destruct (alloc h1 _) as [h2 l2].
    destruct (alloc h2 _) as [h3 l3]. exists l3, h3. split; [reflexivity|].
    apply Hr. intros k. destruct (decide (k = str "enabled")) as [->|Hk].
    - rewrite !lookup_insert_eq. reflexivity.
    - rewrite !lookup_insert_ne by done. rewrite lookup_union.
      destruct (patch !! k), (wechat_of h cfg !! k); reflexivity. }
  split; [exact Happly|]. split.
  - intros nextBaseUrl nextInboundToken. unfold configure. run.
    unfold normalizeBaseUrl. cbn [trim_or_empty]. cbv zeta.
    destruct (Str.trim nextBaseUrl);
      destruct (Str.trim (default [] nextInboundToken));
      cbn [Str.truthy negb from_option];
      match goal with
      | |- context [applyWechatConfig cfg ?patch h] =>
          destruct (Happly patch) as (next & h' & -> & Hu)
      end;
      exists next, h'; auto.
  - pose proof (rebuild_updates h cfg (<[str "enabled" := VBool false]> ∅)
      (<[str "enabled" := VBool false]> (wechat_of h cfg))) as Hr.
    unfold disable. fold (channels_of h cfg). fold (wechat_of h cfg).
    destruct (alloc h _) as [h1 l1]. destruct (alloc h1 _) as [h2 l2].
    destruct (alloc h2 _) as [h3 l3]. exists l3, h3. split; [reflexivity|].
    apply Hr. intros k. destruct (decide (k = str "enabled")) as [->|Hk].
    + rewrite !lookup_insert_eq. reflexivity.
    + rewrite !lookup_insert_ne by done. rewrite lookup_empty. reflexivity.
Qed.

End Onboarding.

(** * Further properties *)

(** ** More on strings *)

Section TrimFacts.

Import Str.

Variable p : N -> bool.

Lemma drop_start_idem (s : list N) :
  drop_start p (drop_start p s) = drop_start p s.
Proof.
  induction s as [|c s IH]; [reflexivity|].
  cbn [drop_start]. destruct (p c) eqn:Hc; [exact IH|].
  cbn [drop_start]. rewrite Hc. reflexivity.
Qed.

(** What is dropped at the end is a run of characters to drop. *)
Lemma drop_end_split (s : list N) :
  exists tail, s = drop_end p s ++ tail /\ all p tail = true.
Proof.
  induction s as [|c s (tail & E & Ht)]; [exists []; split; reflexivity|].
  cbn [drop_end]. destruct (drop_end p s) as [|x d].
  - cbn [app] in E. subst s. destruct (p c) eqn:Hc.
    + exists (c :: tail). split; [reflexivity|]. cbn. rewrite Hc. exact Ht.
    + exists tail. split; [reflexivity|exact Ht].
  - exists tail. split; [|exact Ht]. cbn [app]. f_equal. exact E.
Qed.

(** A prefix is kept when something is left of what follows it. *)
Lemma drop_end_prefix (pre s : list N) :
  drop_end p s <> [] -> drop_end p (pre ++ s) = pre ++ drop_end p s.
Proof.
  intros Hs. induction pre as [|x pre IH]; [reflexivity|].
  cbn [app drop_end]. rewrite IH.
  destruct (pre ++ drop_end p s) eqn:E; [|reflexivity].
  apply app_eq_nil in E as [_ E]. contradiction.
Qed.

End TrimFacts.

Lemma trim_idem (s : list N) : Str.trim (Str.trim s) = Str.trim s.
Proof.
  unfold Str.trim. rewrite drop_start_end_comm, drop_start_idem.
  apply drop_end_idem.
Qed.

Lemma trim_nonempty_end (s : list N) :
  Str.trim s <> [] -> Str.drop_end Str.is_ws s <> [].
Proof.
  unfold Str.trim. rewrite <- drop_start_end_comm.
  intros H E. rewrite E in H. apply H. reflexivity.
Qed.

(** X1. A normalised target has no white space at either end. *)
Theorem normalizeWechatTarget_trimmed (raw : list N) :
  Str.trim (normalizeWechatTarget raw) = normalizeWechatTarget raw.
Proof. unfold normalizeWechatTarget. apply trim_idem. Qed.

(** ** More on channel.ts *)

Section ChannelFacts.

Context `{Engine} `{Network}.

(** X2. [normalizeBaseUrl] of a string never throws; it gives nothing
    exactly when the string is blank, and otherwise the trimmed string
    without a final run of slashes and backslashes, so that the result ends
    in neither. *)
Theorem normalizeBaseUrl_spec (raw : list N) :
  match normalizeBaseUrl (VStr raw) with
  | Ok None => Str.trim raw = []
  | Ok (Some b) =>
      Str.trim raw <> []
      /\ (exists tail,
            Str.trim raw = b ++ tail /\ Str.all Str.is_slash tail = true)
      /\ (forall t c, b = t ++ [c] -> Str.is_slash c = false)
  | Throw _ => False
  end.
Proof.
  unfold normalizeBaseUrl. cbn [trim_or_empty].
  destruct (Str.trim raw) as [|c t] eqn:E; [reflexivity|].
  cbn [Str.truthy negb]. split; [discriminate|]. split.
  - apply drop_end_split.
  - intros t' c'. apply drop_end_last.
Qed.

(** X3. [postJson] never throws and issues exactly one call, whose timer is
    at least 1 ms; the result is ok exactly when the gateway answered with
    a status from 200 to 299, an ok result carries no error text and a
    failed one always does. *)
Theorem postJson_result (url : list N) (payload : ReplyPayload)
    (timeoutMs : N) (w : World) :
  exists r rq,
    postJson url payload timeoutMs w
    = (Ok r, {| sent := sent w ++ [rq];
                clock := clock w + elapsed (sent w) rq |})
    /\ f_url rq = url /\ f_body rq = payload
    /\ 1 <= f_abort_after rq /\ timeoutMs <= f_abort_after rq
    /\ (ok r = true <->
        exists resp, fetch (sent w) rq = Responds resp
                     /\ 200 <= status resp <= 299)
    /\ (ok r = true -> r_error r = None)
    /\ (ok r = false -> exists e, r_error r = Some e).
Proof.
  unfold postJson.
  exists (result_of (fetch (sent w) (request url payload timeoutMs))),
         (request url payload timeoutMs).
  split; [reflexivity|]. cbn [request f_url f_body f_abort_after].
  repeat split; try lia.
  - destruct (fetch _ _) as [resp|e]; cbn [result_of]; [|discriminate].
    destruct (resp_ok resp) eqn:Hok; cbn; [|discriminate].
    intros _. exists resp. split; [reflexivity|].
    unfold resp_ok in Hok. apply andb_prop in Hok as [?%N.leb_le ?%N.leb_le].
    lia.
  - intros (resp & -> & Hs). cbn [result_of].
    assert (resp_ok resp = true) as ->; [|reflexivity].
    unfold resp_ok. apply andb_true_iff. rewrite !N.leb_le. lia.
  - destruct (fetch _ _) as [resp|e]; cbn [result_of]; [|discriminate].
    destruct (resp_ok resp); cbn; [reflexivity|discriminate].
  - destruct (fetch _ _) as [resp|e]; cbn [result_of]; [|eauto].
    destruct (resp_ok resp); cbn; [discriminate|eauto].
Qed.

(** X4. The account id of a resolved account is never empty and has no
    white space around it: an absent or blank id gives the default one.
    The account is enabled unless the configuration says [enabled: false]. *)
Theorem resolveWechatAccount_defaults (h : heap) (cfg : loc)
    (id : option (list N)) :
  let account := resolveWechatAccount h cfg id in
  accountId account <> []
  /\ Str.trim (accountId account) = accountId account
  /\ (Str.trim (default DEFAULT_ACCOUNT_ID id) = [] ->
      accountId account = DEFAULT_ACCOUNT_ID)
  /\ (enabled account = false <->
      prop (resolveWechatConfig h cfg) (str "enabled") = VBool false).
Proof.
  cbv zeta. cbn [accountId enabled resolveWechatAccount].
  destruct (Str.trim (default DEFAULT_ACCOUNT_ID id)) as [|c t] eqn:E;
    cbn [Str.truthy].
  - repeat split; try discriminate; try reflexivity.
    + destruct (prop _ _) as [| |[]| | |]; congruence.
    + intros ->. reflexivity.
  - assert (Str.trim (c :: t) = c :: t) as Ht
      by (rewrite <- E; apply trim_idem).
    repeat split; try discriminate; try exact Ht.
    + destruct (prop _ _) as [| |[]| | |]; congruence.
    + intros ->. reflexivity.
Qed.

End ChannelFacts.

(** ** Onboarding, read back *)

Lemma wechat_of_resolve (h : heap) (cfg : loc) :
  wechat_of h cfg = resolveWechatConfig h cfg.
Proof.
  unfold wechat_of, channels_of, resolveWechatConfig.
  destruct (nullish (prop (own_props h (VRef cfg)) (str "channels")));
    reflexivity.
Qed.

Lemma applyWechatConfig_updates (h : heap) (cfg : loc) (patch : object) :
  exists next h',
    applyWechatConfig cfg patch h = (Ok next, h')
    /\ updates h cfg (<[str "enabled" := VBool true]> patch) h' next.
Proof.
  pose proof (rebuild_updates h cfg (<[str "enabled" := VBool true]> patch)
    (<[str "enabled" := VBool true]> (patch ∪ wechat_of h cfg))) as Hr.
  unfold applyWechatConfig. fold (channels_of h cfg). fold (wechat_of h cfg).
  destruct (alloc h _) as [h1 l1]. destruct (alloc h1 _) as [h2 l2].
  destruct (alloc h2 _) as [h3 l3]. exists l3, h3. split; [reflexivity|].
  apply Hr. intros k. destruct (decide (k = str "enabled")) as [->|Hk].
  - rewrite !lookup_insert_eq. reflexivity.
  - rewrite !lookup_insert_ne by done. rewrite lookup_union.
    destruct (patch !! k), (wechat_of h cfg !! k); reflexivity.
Qed.

Lemma disable_updates (h : heap) (cfg : loc) :
  exists next h',
    disable cfg h = (Ok next, h')
    /\ updates h cfg (<[str "enabled" := VBool false]> ∅) h' next.
Proof.
  pose proof (rebuild_updates h cfg (<[str "enabled" := VBool false]> ∅)
    (<[str "enabled" := VBool false]> (wechat_of h cfg))) as Hr.
  unfold disable. fold (channels_of h cfg). fold (wechat_of h cfg).
  destruct (alloc h _) as [h1 l1]. destruct (alloc h1 _) as [h2 l2].
  destruct (alloc h2 _) as [h3 l3]. exists l3, h3. split; [reflexivity|].
  apply Hr. intros k. destruct (decide (k = str "enabled")) as [->|Hk].
  - rewrite !lookup_insert_eq. reflexivity.
  - rewrite !lookup_insert_ne by done. rewrite lookup_empty. reflexivity.
Qed.

(** Reading [channels.wechat] of an updated configuration gives the fields
    that were set, and the former ones otherwise. *)
Lemma updates_resolve (h h' : heap) (cfg next : loc) (set : object)
    (k : list N) :
  updates h cfg set h' next ->
  prop (resolveWechatConfig h' next) k
  = match set !! k with
    | Some v => v
    | None => prop (resolveWechatConfig h cfg) k
    end.
Proof.
  intros [_ _ _ (channels & wechat & _ & _ & Hc & _ & Hw & Hk)].
  assert (prop (own_props h' (VRef next)) (str "channels") = VRef channels)
    as Pc by (unfold prop; rewrite Hc; reflexivity).
  assert (prop (own_props h' (VRef channels)) (str "wechat") = VRef wechat)
    as Pw by (unfold prop; rewrite Hw; reflexivity).
  unfold resolveWechatConfig at 1. rewrite Pc. cbn [nullish].
  rewrite Pw. cbn [nullish]. unfold prop. rewrite Hk, wechat_of_resolve.
  destruct (set !! k); reflexivity.
Qed.

Section OnboardingFacts.

Context `{Engine}.

(** X5. The configuration [disable] returns resolves to a disabled account
    whose other fields, base URL and inbound token among them, are those of
    the configuration it was given. *)
Theorem disable_read_back (h : heap) (cfg : loc) (id : option (list N)) :
  exists next h',
    disable cfg h = (Ok next, h')
    /\ enabled (resolveWechatAccount h' next id) = false
    /\ forall k, k <> str "enabled" ->
         prop (config (resolveWechatAccount h' next id)) k
         = prop (config (resolveWechatAccount h cfg id)) k.
Proof.
  destruct (disable_updates h cfg) as (next & h' & E & Hu).
  exists next, h'. split; [exact E|].
  cbn [enabled config resolveWechatAccount]. split.
  - rewrite (updates_resolve _ _ _ _ _ _ Hu), lookup_insert_eq. reflexivity.
  - intros k Hk. rewrite (updates_resolve _ _ _ _ _ _ Hu).
    rewrite lookup_insert_ne, lookup_empty by done. reflexivity.
Qed.

(** X6. The configuration [configure] returns resolves to an enabled
    account whose base URL is the answer, trimmed and without its trailing
    slashes, or undefined for a blank answer, and whose inbound token is the
    trimmed answer, or undefined for a blank or absent one; the other fields
    are kept. *)
Theorem configure_read_back (h : heap) (cfg : loc) (nextBaseUrl : list N)
    (nextInboundToken id : option (list N)) :
  exists next h',
    configure cfg nextBaseUrl nextInboundToken h
    = (Ok (next, DEFAULT_ACCOUNT_ID), h')
    /\ let account := resolveWechatAccount h' next id in
       enabled account = true
       /\ prop (config account) (str "jsonBotBaseUrl")
          = match Str.trim nextBaseUrl with
            | [] => VUndef
            | trimmed => VStr (Str.strip_trailing_slashes trimmed)
            end
       /\ prop (config account) (str "inboundToken")
          = match Str.trim (default [] nextInboundToken) with
            | [] => VUndef
            | trimmed => VStr trimmed
            end
       /\ forall k,
            k <> str "enabled" -> k <> str "jsonBotBaseUrl" ->
            k <> str "inboundToken" ->
            prop (config account) k
            = prop (config (resolveWechatAccount h cfg id)) k.
Proof.
  unfold configure. run. unfold normalizeBaseUrl. cbn [trim_or_empty].
  destruct (Str.trim nextBaseUrl) as [|c t];
    destruct (Str.trim (default [] nextInboundToken)) as [|c' t'];
    cbn [Str.truthy negb from_option];
    match goal with
    | |- context [applyWechatConfig cfg ?patch h] =>
        destruct (applyWechatConfig_updates h cfg patch)
          as (next & h' & -> & Hu)
    end;
    exists next, h'; (split; [reflexivity|]);
    cbn [enabled config resolveWechatAccount];
    rewrite !(updates_resolve _ _ _ _ _ _ Hu);
    rewrite lookup_insert_eq;
    rewrite (lookup_insert_ne _ (str "enabled") (str "jsonBotBaseUrl")) by done;
    rewrite (lookup_insert_ne _ (str "enabled") (str "inboundToken")) by done;
    rewrite lookup_insert_eq;
    rewrite (lookup_insert_ne _ (str "inboundToken") (str "jsonBotBaseUrl"))
      by done;
    rewrite lookup_insert_eq;
    (repeat split; try reflexivity);
    intros k K1 K2 K3; rewrite (updates_resolve _ _ _ _ _ _ Hu);
    rewrite !lookup_insert_ne, lookup_empty by done; reflexivity.
Qed.

End OnboardingFacts.

(** ** The bearer token *)

Lemma letter_not_ws (a : N) : 65 <= a <= 122 -> Str.is_ws a = false.
Proof.
  intros Ha. apply not_true_is_false. unfold Str.is_ws.
  rewrite !orb_true_iff, !andb_true_iff, !N.eqb_eq, !N.leb_le. lia.
Qed.

(** A letter in either case lower-cases to the lower-case letter. *)
Lemma same_letter_lower (a b : N) :
  Str.same_letter a b = true -> 97 <= b <= 122 ->
  Str.lower a = b /\ Str.is_ws a = false.
Proof.
  intros Hab%same_letter_cases Hb. split.
  - unfold Str.lower. destruct Hab as [->|[[Hb' _]|[_ ->]]]; [|lia|].
    + replace ((65 <=? b) && (b <=? 90)) with false; [reflexivity|].
      symmetry. apply andb_false_iff. rewrite !N.leb_gt. lia.
    + replace ((65 <=? b - 32) && (b - 32 <=? 90)) with true; [lia|].
      symmetry. apply andb_true_iff. rewrite !N.leb_le. lia.
  - apply letter_not_ws. lia.
Qed.

Lemma spells_length (p q : list N) :
  Str.spells p q = true -> length p = length q.
Proof.
  revert q. induction p as [|a p IH]; intros [|b q]; cbn; try discriminate;
    [reflexivity|].
  intros [_ Hp]%andb_prop. f_equal. auto.
Qed.

Lemma startsWith_spelled (pat scheme rest : list N) :
  Str.spells scheme pat = true ->
  forallb (fun b => (97 <=? b) && (b <=? 122)) pat = true ->
  Str.startsWith (pat ++ [32]) (Str.toLowerCase (scheme ++ 32 :: rest)) = true.
Proof.
  revert pat. induction scheme as [|a scheme IH]; intros [|b pat]; cbn;
    try discriminate; [reflexivity|].
  intros [Hab Hs]%andb_prop [[Hb1%N.leb_le Hb2%N.leb_le]%andb_prop Hp]%andb_prop.
  destruct (same_letter_lower a b Hab) as [-> _]; [lia|].
  rewrite N.eqb_refl. cbn [andb]. apply IH; assumption.
Qed.

(** A header that spells the scheme in some letter case, then a space and
    a text that is not blank, gives the text, trimmed. *)
Lemma parseBearerToken_bearer (w1 scheme t w2 : list N) :
  Str.all Str.is_ws w1 = true ->
  Str.all Str.is_ws w2 = true ->
  Str.spells scheme (str "bearer") = true ->
  Str.truthy (Str.trim t) = true ->
  parseBearerToken (Single (w1 ++ scheme ++ 32 :: t ++ w2))
  = Some (Str.trim t).
Proof.
  intros Hw1 Hw2 Hs Ht.
  pose proof (spells_length _ _ Hs) as Hlen.
  pose proof (startsWith_spelled (str "bearer") scheme
                (Str.drop_end Str.is_ws t) Hs eq_refl) as Hstart.
  destruct scheme as [|a scheme]; [discriminate|].
  assert (Str.is_ws a = false) as Ha.
  { change (str "bearer") with (98 :: str "earer") in Hs.
    cbn [Str.spells] in Hs. apply andb_prop in Hs as [Hs _].
    apply (same_letter_lower a 98 Hs). lia. }
  assert (Str.trim ((w1 ++ (a :: scheme) ++ 32 :: t ++ w2))
          = (a :: scheme) ++ 32 :: Str.drop_end Str.is_ws t) as Htrim.
  { unfold Str.trim. rewrite drop_start_all by exact Hw1.
    cbn [app]. rewrite drop_start_keep by exact Ha.
    assert (a :: scheme ++ 32 :: t ++ w2
            = ((a :: scheme) ++ [32]) ++ (t ++ w2)) as ->
      by (cbn [app]; rewrite <- app_assoc; reflexivity).
    rewrite drop_end_prefix.
    - rewrite drop_end_app_all by exact Hw2.
      cbn [app]. rewrite <- app_assoc. reflexivity.
    - rewrite drop_end_app_all by exact Hw2.
      apply trim_nonempty_end, truthy_nonempty, Ht. }
  unfold parseBearerToken. cbn [first_value].
  assert (Str.truthy (w1 ++ (a :: scheme) ++ 32 :: t ++ w2) = true) as ->
    by (destruct w1; reflexivity).
  cbn [negb]. rewrite Htrim. cbn [app Str.truthy negb].
  change (a :: scheme ++ 32 :: Str.drop_end Str.is_ws t)
    with ((a :: scheme) ++ 32 :: Str.drop_end Str.is_ws t).
  change (str "bearer ") with (str "bearer" ++ [32]).
  rewrite Hstart. cbn [negb].
  assert (Str.slice (length (str "bearer" ++ [32]))
            ((a :: scheme) ++ 32 :: Str.drop_end Str.is_ws t)
          = Str.drop_end Str.is_ws t) as ->.
  { unfold Str.slice.
    assert ((a :: scheme) ++ 32 :: Str.drop_end Str.is_ws t
            = ((a :: scheme) ++ [32]) ++ Str.drop_end Str.is_ws t) as ->
      by (rewrite <- app_assoc; reflexivity).
    replace (length (str "bearer" ++ [32]))
      with (length ((a :: scheme) ++ [32]))
      by (rewrite !length_app, Hlen; reflexivity).
    apply drop_app_length. }
  rewrite trim_trim_end, Ht. reflexivity.
Qed.

(** X7. A token that [parseBearerToken] gives is never empty and has no
    white space around it. *)
Theorem parseBearerToken_trimmed (headerValue : header) (token : list N) :
  parseBearerToken headerValue = Some token ->
  token <> [] /\ Str.trim token = token.
Proof.
  unfold parseBearerToken. destruct (first_value headerValue) as [v|];
    [|discriminate].
  destruct (negb (Str.truthy v)); [discriminate|].
  destruct (negb (Str.truthy (Str.trim v))); [discriminate|].
  destruct (negb (Str.startsWith _ _)); [discriminate|].
  destruct (Str.truthy _) eqn:Ht; [|discriminate].
  intros [= <-]. split; [apply truthy_nonempty, Ht|apply trim_idem].
Qed.

Lemma parseBearerToken_trimmed_witness :
  str "s3cret" <> [] /\ Str.trim (str "s3cret") = str "s3cret".
Proof.
  apply (parseBearerToken_trimmed (Multi [str " bearer  s3cret "; str "x"])).
  reflexivity.
Defined.

(** X8. The scheme of the Authorization header is read in any letter case,
    and the white space around the header value and around the token is
    dropped: such a header with a token that is not blank gives the token,
    trimmed. *)
Theorem parseBearerToken_roundtrip (w1 scheme t w2 : list N) :
  Str.all Str.is_ws w1 = true ->
  Str.all Str.is_ws w2 = true ->
  Str.spells scheme (str "bearer") = true ->
  Str.truthy (Str.trim t) = true ->
  parseBearerToken (Single (w1 ++ scheme ++ 32 :: t ++ w2))
  = Some (Str.trim t).
Proof. exact (parseBearerToken_bearer w1 scheme t w2). Qed.

Lemma parseBearerToken_roundtrip_witness :
  parseBearerToken (Single (str " " ++ str "BeArEr" ++ 32 :: str " s3cret " ++ []))
  = Some (Str.trim (str " s3cret ")).
Proof.
  apply parseBearerToken_roundtrip; reflexivity.
Defined.

(** ** More on the webhook handler *)

Lemma same_letter_upper (a b : N) :
  Str.same_letter a b = true -> 97 <= b <= 122 -> Str.upper a = b - 32.
Proof.
  intros Hab%same_letter_cases Hb. unfold Str.upper.
  destruct Hab as [->|[[Hb' _]|[_ ->]]]; [|lia|].
  - replace ((97 <=? b) && (b <=? 122)) with true; [reflexivity|].
    symmetry. apply andb_true_iff. rewrite !N.leb_le. lia.
  - replace ((97 <=? b - 32) && (b - 32 <=? 122)) with false; [reflexivity|].
    symmetry. apply andb_false_iff. rewrite !N.leb_gt. lia.
Qed.

Lemma toUpperCase_post (m : list N) :
  Str.spells m (str "post") = true -> Str.toUpperCase m = str "POST".
Proof.
  change (str "post") with [112; 111; 115; 116].
  destruct m as [|a [|b [|c [|d [|? ?]]]]]; cbn [Str.spells];
    rewrite ?andb_false_r; try discriminate.
  intros [Ha [Hb [Hc [Hd _]%andb_prop]%andb_prop]%andb_prop]%andb_prop.
  cbn [Str.toUpperCase map].
  rewrite (same_letter_upper _ _ Ha), (same_letter_upper _ _ Hb),
    (same_letter_upper _ _ Hc), (same_letter_upper _ _ Hd) by lia.
  reflexivity.
Qed.

(** The loop reads a stream that stays within the cap to its end: all its
    bytes when it ends well, and its error when it breaks. *)
Lemma read_chunks_within (maxBytes : N) (s : stream) :
  forall (size : N) (chunks : list (list Byte.byte)),
  size + stream_size s <= maxBytes ->
  match stream_error s with
  | None =>
      exists all, read_chunks maxBytes size chunks s = Ok all
                  /\ concat all = concat chunks ++ stream_bytes s
  | Some err => read_chunks maxBytes size chunks s = Throw (Foreign err)
  end.
Proof.
  induction s as [|buf rest IH|err]; intros size chunks Hle;
    cbn [stream_size stream_error stream_bytes read_chunks] in *.
  - exists chunks. rewrite app_nil_r. auto.
  - assert ((maxBytes <? size + N.of_nat (length buf)) = false) as ->
      by (apply N.ltb_ge; lia).
    specialize (IH (size + N.of_nat (length buf)) (chunks ++ [buf])).
    destruct (stream_error rest).
    + apply IH. lia.
    + destruct IH as (all & -> & E); [lia|]. exists all. split; [reflexivity|].
      rewrite E, concat_app. cbn [concat]. rewrite app_nil_r, <- app_assoc.
      reflexivity.
  - reflexivity.
Qed.

Section WebhookFacts.

Context `{Engine}.

(** X9. A bearer token that parses decides alone: when it differs from the
    configured token the request is answered 401, whatever the
    X-OpenClaw-Token header holds, the configured token included. *)
Theorem bearer_takes_precedence (rt : PluginRuntime) (req : IncomingMessage)
    (u token t : list N) (c : Conn) :
  method req = Some (str "POST") ->
  url req = Some u ->
  Str.before_query u = str "/webhook/wechat" ->
  prop (resolveWechatConfig (store rt) (loadConfig rt)) (str "inboundToken")
  = VStr token ->
  Str.truthy (Str.trim token) = true ->
  parseBearerToken (authorization req) = Some t ->
  Str.trim t <> Str.trim token ->
  headersSent (res c) = false ->
  let out := handleWechatWebhookRequest (setWechatRuntime rt None) req c in
  let payload :=
    JObj [(str "ok", JBool false); (str "error", JStr (str "unauthorized"))] in
  out.1 = Ok true
  /\ statusCode (res out.2) = 401
  /\ trace out.2 = trace c ++ [Sent 401 payload].
Proof.
  intros Hm Hu Hp Htok Ht Hb Hne Hc. cbv zeta.
  rewrite (handler_checks_token _ _ _ _ Hm Hu Hp), Htok.
  cbn [trim_or_empty]. rewrite Ht. cbn [andb].
  unfold request_token. rewrite Hb. cbn [token_rejected].
  rewrite bool_decide_eq_false_2 by exact Hne.
  rewrite orb_true_r. run. rewrite (respondJson_fresh _ _ _ Hc). cbn. auto.
Qed.

(** X10. A request that is not a POST, or whose path before the query is
    not the webhook path, is declined: the handler returns [false] and
    leaves the response and the trace as they are, even when no runtime was
    registered. *)
Theorem handler_declines (slot : option PluginRuntime) (req : IncomingMessage)
    (c : Conn) :
  Str.toUpperCase (default [] (method req)) <> str "POST"
  \/ Str.before_query (Str.trim (default [] (url req)))
     <> str "/webhook/wechat" ->
  handleWechatWebhookRequest slot req c = (Ok false, c).
Proof.
  intros Hd. unfold handleWechatWebhookRequest.
  destruct (bool_decide _) eqn:Em; cbn [negb]; [|reflexivity].
  apply bool_decide_eq_true in Em.
  destruct Hd as [Hd|Hd]; [contradiction|].
  unfold shouldHandlePath.
  destruct (negb (Str.truthy _)); [reflexivity|].
  rewrite bool_decide_eq_false_2 by exact Hd. reflexivity.
Qed.

(** X11. The method is compared in upper case: a request whose method
    spells [post] in any letter case is handled as a POST is. *)
Theorem method_any_case (slot : option PluginRuntime) (m : list N)
    (u : option (list N)) (a x : header) (b : stream) (c : Conn) :
  Str.spells m (str "post") = true ->
  handleWechatWebhookRequest slot
    {| method := Some m; url := u; authorization := a;
       x_openclaw_token := x; body := b |} c
  = handleWechatWebhookRequest slot
      {| method := Some (str "POST"); url := u; authorization := a;
         x_openclaw_token := x; body := b |} c.
Proof.
  intros Hm%toUpperCase_post. unfold handleWechatWebhookRequest.
  cbn [method url]. change (default [] (Some m)) with m. rewrite Hm.
  reflexivity.
Qed.

(** X12. Before a runtime is registered, a POST to the webhook makes the
    handler throw the initialisation error, and nothing is sent. *)
Theorem handler_uninitialised (req : IncomingMessage) (u : list N) (c : Conn) :
  method req = Some (str "POST") ->
  url req = Some u ->
  Str.before_query u = str "/webhook/wechat" ->
  handleWechatWebhookRequest None req c
  = (Throw (Error (str "WeChat runtime not initialized")), c).
Proof.
  intros Hm Hu Hp. unfold handleWechatWebhookRequest.
  rewrite Hm, Hu, (shouldHandlePath_webhook _ Hp). reflexivity.
Qed.

(** X13. A body that stays within the cap, the cap itself included, on a
    stream that ends well is read whole: when its text is blank the result
    is the empty object and [JSON.parse] is not called, and otherwise the
    result is what [JSON.parse] makes of the trimmed text. *)
Theorem readJsonBody_within_cap (req : IncomingMessage) (maxBytes : N)
    (c : Conn) :
  stream_error (body req) = None ->
  stream_size (body req) <= maxBytes ->
  let text := Str.trim (utf8_decode (stream_bytes (body req))) in
  readJsonBody req maxBytes c
  = match text with
    | [] => (Ok (JObj []), c)
    | _ =>
        (match JSON_parse text with
         | inl v => Ok v
         | inr err => Throw (Foreign err)
         end,
         {| res := res c; trace := trace c ++ [Parse text] |})
    end.
Proof.
  intros He Hs. cbv zeta. unfold readJsonBody. run.
  pose proof (read_chunks_within maxBytes (body req) 0 [] Hs) as Hr.
  rewrite He in Hr. destruct Hr as (all & -> & ->). cbn [concat app].
  destruct (Str.trim _) as [|a t]; cbn [Str.truthy negb].
  - destruct c. reflexivity.
  - destruct (JSON_parse _); reflexivity.
Qed.

(** X14. [respondJson] never sends twice: after a call of it, a second one
    changes nothing. *)
Theorem respondJson_once (s1 s2 : N) (p1 p2 : json) (c : Conn) :
  respondJson s2 p2 (respondJson s1 p1 c).2 = (Ok tt, (respondJson s1 p1 c).2).
Proof.
  unfold respondJson at 2 3. destruct (headersSent (res c)) eqn:Hc.
  - cbn [snd]. unfold respondJson. rewrite Hc. reflexivity.
  - reflexivity.
Qed.

End WebhookFacts.

Section BodyFacts.

Context `{Engine}.

(** When the reading of the body throws, the handler answers 400 with the
    error as text. *)
Lemma receive_failure (rt : PluginRuntime) (cfg : loc) (req : IncomingMessage)
    (err : exn) (c c' : Conn) :
  readJsonBody req (256 * 1024) c = (Throw err, c') ->
  headersSent (res c) = false ->
  let out := receive rt cfg req c in
  out.1 = Ok true
  /\ statusCode (res out.2) = 400
  /\ written (res out.2) = Some (JSON_stringify (refused (String_exn err)))
  /\ trace out.2 = trace c' ++ [Sent 400 (refused (String_exn err))].
Proof.
  intros Hr Hc. cbv zeta. unfold receive.
  pose proof (readJsonBody_res req (256 * 1024) c) as Hres.
  rewrite Hr in *. cbn [snd] in Hres. rewrite <- Hres in Hc.
  run. rewrite (respondJson_fresh _ _ _ Hc). cbn. auto.
Qed.

(** X15. An empty or blank body is taken for the empty object without a
    call of [JSON.parse], and is then refused for its missing fields:
    the handler answers 400 and does not call [handleInbound]. *)
Theorem blank_body_rejected (rt : PluginRuntime) (req : IncomingMessage)
    (u : list N) (c : Conn) :
  method req = Some (str "POST") ->
  url req = Some u ->
  Str.before_query u = str "/webhook/wechat" ->
  authorized rt req = true ->
  stream_error (body req) = None ->
  stream_size (body req) <= 262144 ->
  Str.trim (utf8_decode (stream_bytes (body req))) = [] ->
  headersSent (res c) = false ->
  let out := handleWechatWebhookRequest (setWechatRuntime rt None) req c in
  let refusal :=
    JObj [(str "ok", JBool false);
          (str "error", JStr (str "missing sender or message"))] in
  out.1 = Ok true
  /\ statusCode (res out.2) = 400
  /\ written (res out.2) = Some (JSON_stringify refusal)
  /\ trace out.2 = trace c ++ [Sent 400 refusal].
Proof.
  intros Hm Hu Hp Ha He Hs Ht Hc. cbv zeta.
  rewrite (handler_authorized _ _ _ _ Hm Hu Hp Ha). unfold receive.
  unfold readJsonBody. run.
  pose proof (read_chunks_within (256 * 1024) (body req) 0 [] Hs) as Hr.
  rewrite He in Hr. destruct Hr as (read & -> & ->). cbn [concat app].
  rewrite Ht. cbn [Str.truthy negb]. unfold dispatch. run.
  cbn [field_text member own_property Str.trim Str.drop_start Str.drop_end
       Str.truthy negb orb].
  rewrite (respondJson_fresh _ _ _ Hc). cbn. auto.
Qed.

(** X16. When the stream of the body breaks before the cap is passed, the
    handler answers 400 with the error of the stream as text, without a
    call of [JSON.parse] or of [handleInbound]. *)
Theorem broken_stream_answered (rt : PluginRuntime) (req : IncomingMessage)
    (u err : list N) (c : Conn) :
  method req = Some (str "POST") ->
  url req = Some u ->
  Str.before_query u = str "/webhook/wechat" ->
  authorized rt req = true ->
  stream_error (body req) = Some err ->
  stream_size (body req) <= 262144 ->
  headersSent (res c) = false ->
  let out := handleWechatWebhookRequest (setWechatRuntime rt None) req c in
  let refusal := JObj [(str "ok", JBool false); (str "error", JStr err)] in
  out.1 = Ok true
  /\ statusCode (res out.2) = 400
  /\ written (res out.2) = Some (JSON_stringify refusal)
  /\ trace out.2 = trace c ++ [Sent 400 refusal].
Proof.
  intros Hm Hu Hp Ha He Hs Hc. cbv zeta.
  rewrite (handler_authorized _ _ _ _ Hm Hu Hp Ha).
  apply (receive_failure rt (loadConfig rt) req (Foreign err) c c); [|exact Hc].
  unfold readJsonBody. run.
  pose proof (read_chunks_within (256 * 1024) (body req) 0 [] Hs) as Hr.
  rewrite He in Hr. rewrite Hr. reflexivity.
Qed.

(** X17. A body that [JSON.parse] rejects is answered 400 with the error of
    the parser as text, and [handleInbound] is not called. *)
Theorem invalid_json_answered (rt : PluginRuntime) (req : IncomingMessage)
    (u text err : list N) (c : Conn) :
  method req = Some (str "POST") ->
  url req = Some u ->
  Str.before_query u = str "/webhook/wechat" ->
  authorized rt req = true ->
  stream_error (body req) = None ->
  stream_size (body req) <= 262144 ->
  Str.trim (utf8_decode (stream_bytes (body req))) = text ->
  Str.truthy text = true ->
  JSON_parse text = inr err ->
  headersSent (res c) = false ->
  let out := handleWechatWebhookRequest (setWechatRuntime rt None) req c in
  let refusal := JObj [(str "ok", JBool false); (str "error", JStr err)] in
  out.1 = Ok true
  /\ statusCode (res out.2) = 400
  /\ written (res out.2) = Some (JSON_stringify refusal)
  /\ trace out.2 = trace c ++ [Parse text; Sent 400 refusal].
Proof.
  intros Hm Hu Hp Ha He Hs Ht Htext Hparse Hc. cbv zeta.
  rewrite (handler_authorized _ _ _ _ Hm Hu Hp Ha).
  pose proof (receive_failure rt (loadConfig rt) req (Foreign err) c
    {| res := res c; trace := trace c ++ [Parse text] |}) as Hf.
  cbv zeta in Hf. cbn [trace String_exn] in Hf.
  rewrite <- app_assoc in Hf. apply Hf; [|exact Hc].
  unfold readJsonBody. run.
  pose proof (read_chunks_within (256 * 1024) (body req) 0 [] Hs) as Hr.
  rewrite He in Hr. destruct Hr as (read & -> & ->). cbn [concat app].
  rewrite Ht, Htext, Hparse. reflexivity.
Qed.

End BodyFacts.

(** ** What every run of the handler keeps *)

Section HandlerInvariant.

Context `{Engine}.

Lemma field_text_trimmed (payload : json) (k s : list N) :
  field_text payload k = Ok s -> Str.trim s = s.
Proof.
  unfold field_text. destruct (member payload k) as [[v|]|]; try discriminate.
  - destruct v; try (destruct (String_json _); [|discriminate]);
      intros [= <-]; apply trim_idem.
  - intros [= <-]. reflexivity.
Qed.

(** A relation between the connection before and after a step that holds
    across the steps the handler is made of holds across the handler. *)
Variable R : Conn -> Conn -> Prop.
Hypothesis R_refl : forall c, R c c.
Hypothesis R_trans : forall a b c, R a b -> R b c -> R a c.
Hypothesis R_respond : forall s p c, R c (respondJson s p c).2.
Hypothesis R_parse : forall t c, R c (emit (Parse t) c).2.
Hypothesis R_log : forall m c, R c (emit (LogError m) c).2.
Hypothesis R_inbound :
  forall p c, dispatchable p -> R c (emit (Inbound p) c).2.

Lemma readJsonBody_keeps (req : IncomingMessage) (maxBytes : N) (c : Conn) :
  R c (readJsonBody req maxBytes c).2.
Proof using R_refl R_parse.
  unfold readJsonBody. run.
  destruct (read_chunks _ _ _ _); [|apply R_refl].
  destruct (negb _); [apply R_refl|].
  pose proof (R_parse (Str.trim (utf8_decode (concat a))) c) as Hp.
  unfold emit in Hp. cbn [snd] in Hp.
  destruct (JSON_parse _); exact Hp.
Qed.

Lemma dispatch_keeps (rt : PluginRuntime) (cfg : loc) (payload : json)
    (c : Conn) :
  R c (dispatch rt cfg payload c).2.
Proof using R_refl R_trans R_respond R_log R_inbound.
  unfold dispatch, handleInbound. run.
  destruct (field_text payload (str "sender")) as [sender|] eqn:Es;
    [|apply R_refl].
  destruct (field_text payload (str "message")) as [text|] eqn:Et;
    [|apply R_refl].
  destruct (Str.truthy sender) eqn:Hs; cbn [negb orb].
  2: { pose proof (R_respond 400 (refused (str "missing sender or message")) c).
       destruct (respondJson _ _ c) as [[|] ?]; assumption. }
  destruct (Str.truthy text) eqn:Ht; cbn [negb].
  2: { pose proof (R_respond 400 (refused (str "missing sender or message")) c).
       destruct (respondJson _ _ c) as [[|] ?]; assumption. }
  pose proof (R_respond 202 accepted c) as H1.
  assert (exists c1, respondJson 202 accepted c = (Ok tt, c1)) as [c1 E1].
  { unfold respondJson. destruct (headersSent (res c)); eauto. }
  rewrite E1 in *. cbn [snd] in H1.
  set (params := {| in_cfg := cfg; in_sender := sender; in_text := text;
                    in_timestampMs := timestamp_ms payload |}).
  assert (dispatchable params) as Hd.
  { repeat split; cbn.
    - apply truthy_nonempty, Hs.
    - apply (field_text_trimmed _ _ _ Es).
    - apply truthy_nonempty, Ht.
    - apply (field_text_trimmed _ _ _ Et). }
  pose proof (R_inbound params c1 Hd) as H2. unfold emit in H2 |- *.
  cbn [snd] in H2.
  destruct (pipeline rt params) as [err|]; cbn [snd].
  - eapply R_trans; [exact H1|]. eapply R_trans; [exact H2|].
    apply (R_log (str "wechat: inbound processing failed: " ++ err)
             {| res := res c1; trace := trace c1 ++ [Inbound params] |}).
  - eapply R_trans; [exact H1|exact H2].
Qed.

Lemma handler_keeps (slot : option PluginRuntime) (req : IncomingMessage)
    (c : Conn) :
  R c (handleWechatWebhookRequest slot req c).2.
Proof using R_refl R_trans R_respond R_parse R_log R_inbound.
  unfold handleWechatWebhookRequest.
  destruct (negb (bool_decide _)); [apply R_refl|].
  destruct (negb (shouldHandlePath _)); [apply R_refl|].
  run. destruct (getWechatRuntime slot) as [rt|]; [|apply R_refl].
  destruct (trim_or_empty _) as [expectedToken|]; [|apply R_refl].
  destruct (Str.truthy expectedToken && _).
  - pose proof (R_respond 401 (refused (str "unauthorized")) c).
    destruct (respondJson _ _ c) as [[|] ?]; assumption.
  - unfold receive.
    pose proof (readJsonBody_keeps req (256 * 1024) c) as Hr.
    destruct (readJsonBody req (256 * 1024) c) as [[parsed|err] c'];
      cbn [snd] in Hr.
    + eapply R_trans; [exact Hr|apply dispatch_keeps].
    + run. eapply R_trans; [exact Hr|].
      pose proof (R_respond 400 (refused (String_exn err)) c').
      destruct (respondJson _ _ c') as [[|] ?]; assumption.
Qed.

End HandlerInvariant.

Section HandlerKeeps.

Context `{Engine}.

Lemma responses_app (a b : list event) :
  responses (a ++ b) = responses a ++ responses b.
Proof. apply filter_app. Qed.

(** X18. Whatever the request, the handler sends at most one response, and
    none on a response that was sent already, which it leaves as it is. *)
Theorem handler_responds_once (slot : option PluginRuntime)
    (req : IncomingMessage) (c : Conn) :
  let out := handleWechatWebhookRequest slot req c in
  exists added,
    trace out.2 = trace c ++ added
    /\ (length (responses added) <= 1)%nat
    /\ (headersSent (res c) = true ->
        res out.2 = res c /\ responses added = []).
Proof.
  cbv zeta.
  pose (R := fun c c' : Conn =>
    exists added,
      trace c' = trace c ++ added
      /\ (length (responses added) <= 1)%nat
      /\ (headersSent (res c) = true -> res c' = res c /\ responses added = [])
      /\ (responses added <> [] -> headersSent (res c') = true)).
  assert (forall e c0, is_sent e = false -> R c0 (emit e c0).2) as Hemit.
  { intros e c0 He. exists [e]. unfold responses. cbn [emit snd trace res].
    rewrite filter_cons_False, filter_nil by (rewrite He; discriminate).
    repeat split; cbn; auto; try lia; try (intros []; reflexivity). }
  destruct (handler_keeps R) with (slot := slot) (req := req) (c := c)
    as (added & Ht & Hl & Hs & _).
  - intros c0. exists []. rewrite app_nil_r.
    repeat split; cbn; auto; try (intros []; reflexivity).
  - intros a b d (a1 & T1 & L1 & S1 & F1) (a2 & T2 & L2 & S2 & F2).
    exists (a1 ++ a2). rewrite T2, T1, app_assoc, responses_app, length_app.
    split; [reflexivity|].
    destruct (responses a1) eqn:E1.
    + cbn [length app]. split; [lia|]. split.
      * intros Ha. destruct (S1 Ha) as [Hr _].
        destruct S2 as [Hr2 ?]; [rewrite Hr; exact Ha|].
        split; congruence.
      * exact F2.
    + assert (headersSent (res b) = true) as Hb by (apply F1; discriminate).
      destruct (S2 Hb) as [Hr2 ->]. rewrite app_nil_r.
      split; [cbn [length] in *; lia|].
      split.
      * intros Ha. destruct (S1 Ha) as [_ [=]].
      * intros _. rewrite Hr2. exact Hb.
  - intros s p c0. unfold respondJson.
    destruct (headersSent (res c0)) eqn:Hc.
    + exists []. rewrite app_nil_r.
      repeat split; cbn; auto; try (intros []; reflexivity).
    + exists [Sent s p]. cbn [snd trace res headersSent].
      unfold responses.
      rewrite filter_cons_True, filter_nil by reflexivity.
      split; [reflexivity|]. split; [cbn; lia|].
      split; [intros Ht; congruence|intros _; reflexivity].
  - intros t c0. apply Hemit. reflexivity.
  - intros m c0. apply Hemit. reflexivity.
  - intros p c0 _. apply Hemit. reflexivity.
  - exists added. auto.
Qed.

(** X19. Whatever the request, every call of [handleInbound] that the
    handler makes carries a sender and a text that are not empty and have
    no white space around them. *)
Theorem handler_dispatches_clean (slot : option PluginRuntime)
    (req : IncomingMessage) (c : Conn) :
  let out := handleWechatWebhookRequest slot req c in
  exists added,
    trace out.2 = trace c ++ added
    /\ forall p, In (Inbound p) added -> dispatchable p.
Proof.
  cbv zeta.
  pose (R := fun c c' : Conn =>
    exists added,
      trace c' = trace c ++ added /\ Forall dispatchable_event added).
  assert (forall e c0, dispatchable_event e -> R c0 (emit e c0).2) as Hemit.
  { intros e c0 He. exists [e]. split; [reflexivity|]. constructor; auto. }
  destruct (handler_keeps R) with (slot := slot) (req := req) (c := c)
    as (added & Ht & Hf).
  - intros c0. exists []. rewrite app_nil_r. split; [reflexivity|constructor].
  - intros a b d (a1 & T1 & F1) (a2 & T2 & F2).
    exists (a1 ++ a2). rewrite T2, T1, app_assoc. split; [reflexivity|].
    apply Forall_app. auto.
  - intros s p c0. unfold respondJson. destruct (headersSent (res c0)).
    + exists []. rewrite app_nil_r. split; [reflexivity|constructor].
    + exists [Sent s p]. split; [reflexivity|]. constructor; [exact I|constructor].
  - intros t c0. apply Hemit. exact I.
  - intros m c0. apply Hemit. exact I.
  - intros p c0 Hp. apply Hemit. exact Hp.
  - exists added. split; [exact Ht|]. intros p Hp.
    rewrite Forall_forall in Hf. apply (Hf (Inbound p)).
    apply list_elem_of_In. exact Hp.
Qed.

End HandlerKeeps.

(** ** The delivery callback *)

Section DeliveryFacts.

Context `{Network}.

Lemma media_of_clean (payload : ReplyBlock) (u : list N) :
  In u (media_of payload) -> u <> [] /\ Str.trim u = u.
Proof.
  unfold media_of. intros Hu%list_elem_of_In%list_elem_of_filter.
  destruct Hu as [Ht Hu]. split; [apply truthy_nonempty, Ht|].
  apply list_elem_of_In, in_map_iff in Hu as (x & <- & _). apply trim_idem.
Qed.

(** The loop posts one file per URL, in order, and goes on after a call
    that failed, which it only logs. *)
Lemma deliver_media_posts (base sender : list N) (urls : list (list N)) :
  forall g : Gateway, exists lines g',
    deliver_media base sender urls g = (Ok tt, g')
    /\ sent (net g')
       = sent (net g)
         ++ map (fun u => request (base ++ str "/reply")
                            {| session_name := sender; content := u;
                               type_ := str "file" |} 15000) urls
    /\ logged g' = logged g ++ lines
    /\ (length lines <= length urls)%nat
    /\ ((forall hist rq, ok (result_of (fetch hist rq)) = true) -> lines = [])
    /\ ((forall hist rq, ok (result_of (fetch hist rq)) = false) ->
        length lines = length urls).
Proof.
  induction urls as [|u urls IH]; intros g.
  - exists [], g. cbn. rewrite !app_nil_r. repeat split; auto.
  - cbn [deliver_media]. run. unfold on_world, logger_error. cbn [net logged].
    set (rq := request (base ++ str "/reply") _ 15000).
    destruct (ok (result_of (fetch (sent (net g)) rq))) eqn:Hok; cbn [negb].
    + match goal with
      | |- context [deliver_media base sender urls ?g1] =>
          destruct (IH g1) as (lines & g' & -> & Hs & Hl & Hn & Hall & Hnone)
      end.
      cbn [net logged sent] in Hs, Hl. exists lines, g'.
      split; [reflexivity|]. split.
      { rewrite Hs, <- app_assoc. reflexivity. }
      split; [exact Hl|]. split; [cbn; lia|]. split; [exact Hall|].
      intros Hf. rewrite Hf in Hok. discriminate.
    + match goal with
      | |- context [deliver_media base sender urls ?g1] =>
          destruct (IH g1) as (lines & g' & -> & Hs & Hl & Hn & Hall & Hnone)
      end.
      cbn [net logged sent] in Hs, Hl.
      exists (failure (str " file") (result_of (fetch (sent (net g)) rq))
                :: lines), g'.
      split; [reflexivity|]. split.
      { rewrite Hs, <- app_assoc. reflexivity. }
      split; [rewrite Hl, <- app_assoc; reflexivity|].
      split; [cbn; lia|]. split.
      * intros Ht. rewrite Ht in Hok. discriminate.
      * intros Hf. cbn. f_equal. auto.
Qed.

(** X20. The delivery callback never throws.  It posts the text first,
    when it is not blank, and then one file per media URL, in order, all to
    the reply endpoint and for the sender; the URLs are those of the list
    when there is one, the single legacy one otherwise, trimmed and without
    the blank ones.  A failed call is logged and the rest is still sent:
    there are no more log lines than calls, none when every call is ok, and
    one per call when every call fails. *)
Theorem deliver_posts (base sender : list N) (payload : ReplyBlock)
    (g : Gateway) :
  let text := Str.trim (default [] (b_text payload)) in
  let post := fun (content type : list N) (timeout : N) =>
    {| f_url := base ++ str "/reply";
       f_method := str "POST";
       f_headers := [(str "Content-Type", str "application/json")];
       f_body := {| session_name := sender; content := content;
                    type_ := type |};
       f_abort_after := timeout |} in
  let posts :=
    (if Str.truthy text then [post text (str "text") 5000] else [])
    ++ map (fun u => post u (str "file") 15000) (media_of payload) in
  exists lines g',
    deliver base sender payload g = (Ok tt, g')
    /\ sent (net g') = sent (net g) ++ posts
    /\ logged g' = logged g ++ lines
    /\ (length lines <= length posts)%nat
    /\ ((forall hist rq, ok (result_of (fetch hist rq)) = true) -> lines = [])
    /\ ((forall hist rq, ok (result_of (fetch hist rq)) = false) ->
        length lines = length posts)
    /\ (forall u, In u (media_of payload) -> u <> [] /\ Str.trim u = u).
Proof.
  cbv zeta. unfold deliver. run.
  destruct (Str.truthy (Str.trim (default [] (b_text payload)))).
  - unfold on_world at 1. unfold logger_error, postJson. cbn [net logged].
    set (rq := request (base ++ str "/reply") _ 5000).
    destruct (ok (result_of (fetch (sent (net g)) rq))) eqn:Hok; cbn [negb];
      match goal with
      | |- context [deliver_media base sender _ ?g1] =>
          destruct (deliver_media_posts base sender (media_of payload) g1)
            as (lines & g' & -> & Hs & Hl & Hn & Hall & Hnone)
      end; cbn [net logged sent] in Hs, Hl.
    + exists lines, g'. split; [reflexivity|]. split.
      { rewrite Hs, <- app_assoc. reflexivity. }
      split; [exact Hl|]. split; [cbn; rewrite length_map in *; lia|].
      split; [exact Hall|]. split; [|apply media_of_clean].
      intros Hf. rewrite Hf in Hok. discriminate.
    + exists (failure [] (result_of (fetch (sent (net g)) rq)) :: lines), g'.
      split; [reflexivity|]. split.
      { rewrite Hs, <- app_assoc. reflexivity. }
      split; [rewrite Hl, <- app_assoc; reflexivity|].
      split; [cbn; rewrite length_map in *; lia|]. split.
      * intros Ht. rewrite Ht in Hok. discriminate.
      * split; [|apply media_of_clean].
        intros Hf. cbn. rewrite length_map in *. f_equal. auto.
  - destruct (deliver_media_posts base sender (media_of payload) g)
      as (lines & g' & -> & Hs & Hl & Hn & Hall & Hnone).
    exists lines, g'. cbn [app]. rewrite length_map in *.
    split; [reflexivity|]. split; [exact Hs|]. split; [exact Hl|].
    split; [exact Hn|]. split; [exact Hall|]. split; [exact Hnone|].
    apply media_of_clean.
Qed.

End DeliveryFacts.

(** ** Addresses, configuration and tokens, end to end *)

Lemma normalizeWechatTarget_wechat (s : list N) :
  normalizeWechatTarget (str "wechat:" ++ s) = Str.trim s.
Proof.
  unfold normalizeWechatTarget.
  assert (Str.trim (str "wechat:" ++ s)
          = str "wechat:" ++ Str.drop_end Str.is_ws s) as ->.
  { unfold Str.trim.
    change (Str.drop_start Str.is_ws (str "wechat:" ++ s))
      with (str "wechat" ++ 58 :: s).
    rewrite drop_end_keep by reflexivity. reflexivity. }
  rewrite strip_scheme_spells by (left; reflexivity).
  apply trim_trim_end.
Qed.

Section EndToEnd.

Context `{Engine} `{Network}.

(** X21. The addresses that [handleInbound] puts in the inbound context
    for a sender the handler extracted lead back to that sender: as targets
    they normalise to the sender, and they look like an id. *)
Theorem inbound_address_roundtrip (payload : json)
    (sender text body sessionKey accountId : list N) :
  field_text payload (str "sender") = Ok sender ->
  Str.truthy sender = true ->
  let ctx := inboundContext sender text body sessionKey accountId in
  normalizeWechatTarget (From ctx) = sender
  /\ normalizeWechatTarget (To ctx) = sender
  /\ normalizeWechatTarget (OriginatingTo ctx) = sender
  /\ looksLikeId (OriginatingTo ctx) = true.
Proof.
  intros Hs%field_text_trimmed Ht. cbv zeta.
  unfold looksLikeId. cbn [From To OriginatingTo inboundContext].
  rewrite normalizeWechatTarget_wechat, Hs. auto.
Qed.

Lemma isConfigured_false (h : heap) (cfg : loc) (id : option (list N)) :
  isConfigured (resolveWechatAccount h cfg id) = Ok false ->
  normalizeBaseUrl (prop (resolveWechatConfig h cfg) (str "jsonBotBaseUrl"))
  = Ok None.
Proof.
  unfold isConfigured, normalizeBaseUrl. cbn [config resolveWechatAccount].
  destruct (prop _ _) as [| | | |s|]; try discriminate; try reflexivity.
  cbn [trim_or_empty]. intros [= ->]. reflexivity.
Qed.

(** X22. An account that [isConfigured] reports as not configured cannot
    send: both senders throw the missing-key error without a call. *)
Theorem unconfigured_cannot_send (h : heap) (cfg : loc)
    (id : option (list N)) (to text : list N)
    (caption mediaUrl : option (list N)) (w : World) :
  isConfigured (resolveWechatAccount h cfg id) = Ok false ->
  sendText h cfg to text w = (Throw missing_base_url, w)
  /\ sendMedia h cfg to caption mediaUrl w = (Throw missing_base_url, w).
Proof.
  intros Hc%isConfigured_false. unfold sendText, sendMedia. run.
  cbn [config resolveWechatAccount]. rewrite Hc. split; reflexivity.
Qed.

(** X23. The converse fails on a base URL made of slashes only, which
    [isConfigured] reports as configured while both senders take it for
    missing and throw without a call. *)
Theorem slashes_only_base_url (h : heap) (cfg : loc) (id : option (list N))
    (raw to text : list N) (caption mediaUrl : option (list N)) (w : World) :
  prop (resolveWechatConfig h cfg) (str "jsonBotBaseUrl") = VStr raw ->
  Str.truthy (Str.trim raw) = true ->
  Str.strip_trailing_slashes (Str.trim raw) = [] ->
  isConfigured (resolveWechatAccount h cfg id) = Ok true
  /\ sendText h cfg to text w = (Throw missing_base_url, w)
  /\ sendMedia h cfg to caption mediaUrl w = (Throw missing_base_url, w).
Proof.
  intros Hraw Ht Hs. split.
  - unfold isConfigured. cbn [config resolveWechatAccount].
    rewrite Hraw, Ht. reflexivity.
  - unfold sendText, sendMedia. run. cbn [config resolveWechatAccount].
    rewrite Hraw. unfold normalizeBaseUrl. cbn [trim_or_empty].
    rewrite Ht, Hs. split; reflexivity.
Qed.

(** X24. [sendMedia] does not look at the media URL: without one, and
    without a caption, it posts the text [undefined] as the file. *)
Theorem sendMedia_without_url (h : heap) (cfg : loc) (raw to : list N)
    (w : World) :
  prop (resolveWechatConfig h cfg) (str "jsonBotBaseUrl") = VStr raw ->
  Str.truthy (Str.strip_trailing_slashes (Str.trim raw)) = true ->
  sent (sendMedia h cfg to None None w).2
  = sent w
    ++ [ {| f_url := Str.strip_trailing_slashes (Str.trim raw) ++ str "/reply";
            f_method := str "POST";
            f_headers := [(str "Content-Type", str "application/json")];
            f_body := {| session_name := normalizeWechatTarget to;
                         content := str "undefined";
                         type_ := str "file" |};
            f_abort_after := 15000 |} ].
Proof.
  intros Hraw Hb. unfold sendMedia. run.
  cbn [config resolveWechatAccount]. rewrite Hraw.
  rewrite (normalizeBaseUrl_string _ Hb).
  rewrite (require_base_url_truthy _ _ Hb).
  cbn [default Str.trim Str.drop_start Str.drop_end Str.truthy].
  destruct (ok (result_of _)); reflexivity.
Qed.

(** X25. The token that [configure] stores is the one the handler then
    asks for.  After [configure] with a blank or absent token every request
    passes the token check; with a token, a request passes that carries it
    as bearer token or, without an Authorization header, in the
    X-OpenClaw-Token header, and a request without either header does
    not. *)
Theorem configure_then_authorize (h : heap) (cfg : loc)
    (nextBaseUrl : list N) (nextInboundToken : option (list N))
    (pl : InboundParams -> option (list N)) :
  exists next h',
    configure cfg nextBaseUrl nextInboundToken h
    = (Ok (next, DEFAULT_ACCOUNT_ID), h')
    /\ let rt := {| store := h'; loadConfig := next; pipeline := pl |} in
       match Str.trim (default [] nextInboundToken) with
       | [] => forall req, authorized rt req = true
       | token =>
           (forall req,
              authorization req = Single (str "Bearer " ++ token) ->
              authorized rt req = true)
           /\ (forall req,
                 authorization req = Absent ->
                 x_openclaw_token req = Single token ->
                 authorized rt req = true)
           /\ (forall req,
                 authorization req = Absent ->
                 x_openclaw_token req = Absent ->
                 authorized rt req = false)
       end.
Proof.
  unfold configure. run. unfold normalizeBaseUrl. cbn [trim_or_empty].
  destruct (negb (Str.truthy (Str.trim nextBaseUrl)));
    match goal with
    | |- context [applyWechatConfig cfg ?patch h] =>
        destruct (applyWechatConfig_updates h cfg patch)
          as (next & h' & -> & Hu)
    end;
    exists next, h'; (split; [reflexivity|]); cbv zeta;
    pose proof (updates_resolve _ _ _ _ _ (str "inboundToken") Hu) as Htok;
    rewrite (lookup_insert_ne _ (str "enabled") (str "inboundToken")) in Htok
      by done;
    rewrite lookup_insert_eq in Htok;
    unfold authorized; cbn [store loadConfig config resolveWechatAccount];
    rewrite Htok;
    pose proof (trim_idem (default [] nextInboundToken)) as Hidem;
    destruct (Str.trim (default [] nextInboundToken)) as [|a t] eqn:E;
    cbn [Str.truthy trim_or_empty]; try (intros req; reflexivity);
    rewrite Hidem; cbn [Str.truthy andb];
    (split; [|split]); intros req Ha; try intros Hx;
    unfold request_token; rewrite Ha.
  all: try (rewrite Hx; cbn [parseBearerToken first_value token_rejected];
            try reflexivity;
            rewrite Hidem, bool_decide_eq_true_2 by reflexivity;
            reflexivity).
  all: pose proof (parseBearerToken_bearer [] (str "Bearer") (a :: t) []
                     eq_refl eq_refl eq_refl) as Hp;
    rewrite Hidem in Hp; cbn [app] in Hp; rewrite app_nil_r in Hp;
    change (str "Bearer " ++ a :: t) with (str "Bearer" ++ 32 :: a :: t);
    rewrite Hp by reflexivity; cbn [token_rejected Str.truthy negb orb];
    rewrite Hidem, bool_decide_eq_true_2 by reflexivity; reflexivity.
Qed.

End EndToEnd.
